(** * SuperflexPy, [superflexpy/framework/node.py]: the Node class

    A Node owns a list of Units and a parallel list of weights.  It combines
    the output fluxes of its Units ([get_output]), namespaces their parameters
    and states at construction ([__init__]), and resolves addressed look-ups
    into its Units ([get_internal], [call_internal]).

    The embedding is shallow.  Python values are Rocq values, a raised
    exception is the [Raise] case of [result], a [for] loop is [for_each] over
    the list it iterates, and the objects that Units share between Nodes (their
    parameter and state dictionaries) live in an explicit store. *)

From Stdlib Require Import PrimFloat Ascii.
From stdpp Require Import base option list strings gmap.

(** ** Exceptions and results *)

Inductive exception : Type :=
| AttributeError (msg : string)
| IndexError
| KeyError (key : string)
| TypeError
| UnboundLocalError
| OtherError (name : string).

Inductive result (A : Type) : Type :=
| Ok (a : A)
| Raise (e : exception).
Arguments Ok {A} a.
Arguments Raise {A} e.

#[global] Instance result_ret : MRet result := @Ok.
#[global] Instance result_bind : MBind result :=
  λ A B f m, match m with Ok a => f a | Raise e => Raise e end.
#[global] Instance result_fmap : FMap result :=
  λ A B f m, match m with Ok a => Ok (f a) | Raise e => Raise e end.

(** [for x in xs: body], the loop state threaded through the iterations; an
    exception raised by an iteration leaves the loop. *)
Fixpoint for_each {A S : Type} (xs : list A) (body : A → S → result S)
    (s : S) : result S :=
  match xs with
  | [] => Ok s
  | x :: xs' => s' ← body x s; for_each xs' body s'
  end.

(** [l[i]] for a list and a non-negative index. *)
Definition index {A : Type} (l : list A) (i : nat) : result A :=
  match l !! i with
  | Some x => Ok x
  | None => Raise IndexError
  end.

(** [s.split(sep)] for a one-character separator. *)
Fixpoint split (sep : Ascii.ascii) (s : string) : list string :=
  match s with
  | EmptyString => [EmptyString]
  | String c s' =>
      if Ascii.eqb c sep then EmptyString :: split sep s'
      else match split sep s' with
           | [] => [String c EmptyString]
           | x :: xs => String c x :: xs
           end
  end.

(** ** Numbers

    Fluxes and weights are numbers of the numeric library in use (Python
    floats, numpy arrays).  The Node only multiplies a flux by a weight and
    adds fluxes, so the carrier and its operations are an interface. *)
Class Arith (num : Type) : Type := {
  (** the literal [0] of [output.append(0)] *)
  zero : num;
  (** [x + y] *)
  add : num → num → num;
  (** [x * y] for a flux [x] and a scalar [y] *)
  mul : num → num → num;
  (** [x * w] for a flux [x] and a list [w]: not a product the Node is meant
      to form; what it yields is left to the numeric library *)
  mul_list : num → list (option num) → result num
}.

(** Python floats: IEEE 754 binary64.  The int [0] is converted to [0.0]
    when added to a float, and [float * list] raises a [TypeError]. *)
#[global] Instance float_arith : Arith float := {|
  zero := 0%float;
  add := PrimFloat.add;
  mul := PrimFloat.mul;
  mul_list := λ _ _, Raise TypeError
|}.

Section Node.
Context {num : Type} `{!Arith num} {value : Type}.

(** An entry of [weights]. *)
Inductive weight : Type :=
| WFloat (w : num)                (* an instance of [float] *)
| WScalar (w : num)               (* another scalar, such as the int [1] *)
| WList (w : list (option num)).  (* a list; [None] is Python's [None] *)

Definition isinstance_float (w : weight) : bool :=
  match w with
  | WFloat _ => true
  | _ => false
  end.

(** [x * w] *)
Definition mul_weight (x : num) (w : weight) : result num :=
  match w with
  | WFloat y | WScalar y => Ok (mul x y)
  | WList l => mul_list x l
  end.

(** [len(w)] *)
Definition len (w : weight) : result nat :=
  match w with
  | WList l => Ok (length l)
  | _ => Raise TypeError
  end.

(** [w[j]] *)
Definition getitem (w : weight) (j : nat) : result (option num) :=
  match w with
  | WList l => index l j
  | _ => Raise TypeError
  end.

#[local] Set Warnings "-register-all".

(** What [getattr] finds on a Unit: a plain value, or a bound method with
    the text [format] prints for it and its behaviour on keyword
    arguments. *)
Inductive pyobj : Type :=
| Data (v : value)
| Method (text : string) (call : list (string * value) → result pyobj).

(** Modelled from the spec: the Unit class is not part of this file; a Unit
    is the capability contract the Node consumes ([set_input], [get_output],
    [get_internal], [call_internal], [add_prefix_parameters],
    [add_prefix_states], the field [id]).  Its parameter and state
    dictionaries are objects of the store, which the Unit refers to by
    location; [unit_get_output input solve] is what [get_output(solve)]
    returns once [set_input(input)] has been called. *)
Record Unit : Type := {
  unit_id : string;
  parameters : nat;
  states : nat;
  unit_get_output : list num → bool → result (list num);
  unit_getattr : string → option pyobj;
  unit_get_internal : string → string → result pyobj;
  unit_call_internal : string → string → list (string * value) → result pyobj;
  unit_add_prefix_parameters : string → gmap string num → gmap string num;
  unit_add_prefix_states : string → gmap string num → gmap string num
}.

Definition with_dicts (h : Unit) (p s : nat) : Unit :=
  {| unit_id := unit_id h;
     parameters := p;
     states := s;
     unit_get_output := unit_get_output h;
     unit_getattr := unit_getattr h;
     unit_get_internal := unit_get_internal h;
     unit_call_internal := unit_call_internal h;
     unit_add_prefix_parameters := unit_add_prefix_parameters h;
     unit_add_prefix_states := unit_add_prefix_states h |}.

Record Node : Type := {
  id : string;
  _error_message : string;
  _content : list Unit;
  area : num;
  _content_pointer : gmap string nat;
  _weights : list weight;
  input : option (list num)
}.

(** ** The store of shared objects *)

(** Modelled from the spec: [copy(h)] on a Unit gives a shallow alias, which
    refers to the dictionaries of [h]. *)
Definition copy (h : Unit) (σ : list (gmap string num))
    : Unit * list (gmap string num) :=
  (h, σ).

(** Modelled from the spec: [deepcopy(h)] on a Unit gives an exclusive
    duplicate, whose dictionaries are new objects with the contents of those
    of [h]. *)
Definition deepcopy (h : Unit) (σ : list (gmap string num))
    : Unit * list (gmap string num) :=
  (with_dicts h (length σ) (S (length σ)),
   σ ++ [default ∅ (σ !! parameters h); default ∅ (σ !! states h)]).

(** Modelled from the spec: writing and reading one parameter of a Unit. *)
Definition set_parameter (h : Unit) (k : string) (v : num)
    (σ : list (gmap string num)) : list (gmap string num) :=
  alter (insert k v) (parameters h) σ.

Definition get_parameter (h : Unit) (k : string)
    (σ : list (gmap string num)) : option num :=
  d ← σ !! parameters h; d !! k.

(** ** METHODS USED BY THE FRAMEWORK *)

(** [Node.add_prefix_parameters], on the Units [self._content] holds. *)
Definition add_prefix_parameters (self_content : list Unit) (id : string)
    (σ : list (gmap string num)) : list (gmap string num) :=
  foldl (λ σ h, alter (unit_add_prefix_parameters h id) (parameters h) σ)
        σ self_content.

(** [Node.add_prefix_states], on the Units [self._content] holds. *)
Definition add_prefix_states (self_content : list Unit) (id : string)
    (σ : list (gmap string num)) : list (gmap string num) :=
  foldl (λ σ h, alter (unit_add_prefix_states h id) (states h) σ)
        σ self_content.

Definition external_routing (self : Node) (flux : list num) : list num :=
  flux.

Definition _internal_routing (self : Node) (flux : list num) : list num :=
  flux.

(** ** Construction *)

(** [self._error_message], lines 61-62. *)
Definition error_message_for (id : string) : string :=
  ("module : superflexPy, Node : " +:+ id +:+ ",") +:+ " Error message : ".

(** One iteration of [for h in units] in [__init__]; the loop state is
    [self._content] and the store. *)
Definition init_body (id : string) (shared_parameters : bool)
    (st : list Unit * list (gmap string num)) (h : Unit)
    : list Unit * list (gmap string num) :=
  if shared_parameters then
    let '(c, σ) := copy h st.2 in (st.1 ++ [c], σ)
  else
    let '(c, σ) := deepcopy h st.2 in
    (st.1 ++ [c], add_prefix_parameters (st.1 ++ [c]) id σ).

(** [{hru.id: i for i, hru in enumerate(self._content)}] *)
Definition content_pointer (content : list Unit) : gmap string nat :=
  foldl (λ m ih, <[unit_id ih.2 := ih.1]> m) ∅
        (zip (seq 0 (length content)) content).

Definition __init__ (units : list Unit) (weights : list weight)
    (area : num) (id : string) (shared_parameters : bool)
    (σ : list (gmap string num)) : Node * list (gmap string num) :=
  let st := foldl (init_body id shared_parameters) ([], σ) units in
  ({| id := id;
      _error_message := error_message_for id;
      _content := st.1;
      area := area;
      _content_pointer := content_pointer st.1;
      _weights := weights;
      input := None |},
   add_prefix_states st.1 id st.2).

(** ** METHODS FOR THE USER *)

Definition set_input (self : Node) (input : list num) : Node :=
  {| id := id self;
     _error_message := _error_message self;
     _content := _content self;
     area := area self;
     _content_pointer := _content_pointer self;
     _weights := _weights self;
     input := Some input |}.

(** [self.input] *)
Definition self_input (self : Node) : result (list num) :=
  match input self with
  | Some i => Ok i
  | None => Raise (AttributeError "'Node' object has no attribute 'input'")
  end.

(** [enumerate(l)] *)
Definition enumerate {A : Type} (l : list A) : list (nat * A) :=
  zip (seq 0 (length l)) l.

(** [for h in self._content: h.set_input(deepcopy(self.input))]: every Unit
    is paired with the copy of the input it was given. *)
Definition set_inputs (self : Node) : result (list (Unit * list num)) :=
  for_each (_content self)
    (λ h done, i ← self_input self; Ok (done ++ [(h, i)])) [].

(** [[o * w for o in loc_out]] *)
Definition scale (loc_out : list num) (w : weight) : result (list num) :=
  for_each loc_out (λ o done, p ← mul_weight o w; Ok (done ++ [p])) [].

(** The name [output], bound or not yet. *)
Definition bound (output : option (list num)) : result (list num) :=
  match output with
  | Some out => Ok out
  | None => Raise UnboundLocalError
  end.

(** One iteration of the loop over the Units when the first weight is a
    float (lines 114-121); the loop state is [output]. *)
Definition uniform_body (solve : bool)
    (ihw : nat * ((Unit * list num) * weight))
    (output : option (list num)) : result (option (list num)) :=
  let '(i, ((h, inp), w)) := ihw in
  loc_out ← unit_get_output h inp solve;
  if decide (i = 0) then
    Some <$> scale loc_out w
  else
    out ← bound output;
    Some <$> for_each (seq 0 (length out))
      (λ j out,
         o ← index out j;
         x ← index loc_out j;
         p ← mul_weight x w;
         Ok (<[j := add o p]> out))
      out.

(** One iteration of the loop over the Units otherwise (lines 123-141); the
    state of the inner loops is [(output, out_count)]. *)
Definition mask_body (solve : bool)
    (ihw : nat * ((Unit * list num) * weight))
    (output : option (list num)) : result (option (list num)) :=
  let '(i, ((h, inp), w)) := ihw in
  loc_out ← unit_get_output h inp solve;
  if decide (i = 0) then
    n ← len w;
    st ← for_each (seq 0 n)
      (λ j (st : list num * nat),
         wj ← getitem w j;
         match wj with
         | None => Ok (st.1 ++ [zero], st.2)
         | Some wj =>
             x ← index loc_out st.2;
             Ok (st.1 ++ [mul x wj], S st.2)
         end)
      ([], 0);
    Ok (Some st.1)
  else
    n ← len w;
    st ← for_each (seq 0 n)
      (λ j (st : option (list num) * nat),
         wj ← getitem w j;
         match wj with
         | None => Ok st
         | Some wj =>
             out ← bound st.1;
             o ← index out j;
             x ← index loc_out st.2;
             Ok (Some (<[j := add o (mul x wj)]> out), S st.2)
         end)
      (output, 0);
    Ok st.1.

(** The two ways of combining the outputs, as loops over
    [enumerate(zip(self._content, self._weights))] that bind [output]. *)
Definition uniform_branch (solve : bool) (content : list (Unit * list num))
    (weights : list weight) : result (option (list num)) :=
  for_each (enumerate (zip content weights)) (uniform_body solve) None.

Definition mask_branch (solve : bool) (content : list (Unit * list num))
    (weights : list weight) : result (option (list num)) :=
  for_each (enumerate (zip content weights)) (mask_body solve) None.

(** [return self._internal_routing(output)] *)
Definition return_routed (self : Node) (output : option (list num))
    : result (list num) :=
  out ← bound output;
  Ok (_internal_routing self out).

Definition get_output (self : Node) (solve : bool) : result (list num) :=
  (* Set the inputs *)
  content ← set_inputs self;
  (* Calculate output *)
  w0 ← index (_weights self) 0;
  output ←
    (if isinstance_float w0 then
       uniform_branch solve content (_weights self)
     else
       mask_branch solve content (_weights self));
  return_routed self output.

(** ** Addressing *)

(** [getattr(h, name)] *)
Definition getattr (h : Unit) (name : string) : result pyobj :=
  match unit_getattr h name with
  | Some o => Ok o
  | None =>
      Raise (AttributeError
               ("'Unit' object has no attribute '" +:+ name +:+ "'"))
  end.

(** [try: body / except AttributeError: raise AttributeError(message)] *)
Definition except_AttributeError {A : Type} (body : result A)
    (message : string) : result A :=
  match body with
  | Raise (AttributeError _) => Raise (AttributeError message)
  | _ => body
  end.

Section Addressing.
(** [GenericComponent._find_content_from_name], which Node inherits; the
    class is not part of this file, so the method is a parameter: given the
    Node and the id, the index of a Unit, or an exception. *)
Variable _find_content_from_name : Node → string → result nat.

Definition _find_attribute_from_name (self : Node) (id : string)
    : result (nat * bool) :=
  let splitted := split "_"%char id in
  hru_num ← _find_content_from_name self id;
  if decide (length splitted = 3) then
    Ok (hru_num, true)  (* We are looking for an element *)
  else
    Ok (hru_num, false).

Definition get_internal (self : Node) (id attribute : string)
    : result pyobj :=
  found ← _find_attribute_from_name self id;
  if found.2 : bool then
    h ← index (_content self) found.1;
    unit_get_internal h id attribute
  else
    except_AttributeError
      (h ← index (_content self) found.1; getattr h attribute)
      (_error_message self
         +:+ "the attribute " +:+ attribute +:+ " does not exist.").

(** In the [try] block the name [method] is rebound to what [getattr]
    returns, so the handler formats the name when [getattr] raised and the
    bound method when the call raised. *)
Definition call_internal (self : Node) (id method : string)
    (kwargs : list (string * value)) : result pyobj :=
  found ← _find_attribute_from_name self id;
  if found.2 : bool then
    h ← index (_content self) found.1;
    unit_call_internal h id method kwargs
  else
    h ← index (_content self) found.1;
    match unit_getattr h method with
    | None =>
        except_AttributeError (getattr h method)
          (_error_message self
             +:+ "the method " +:+ method +:+ " does not exist.")
    | Some (Data _) => Raise TypeError
    | Some (Method text call) =>
        except_AttributeError (call kwargs)
          (_error_message self
             +:+ "the method " +:+ text +:+ " does not exist.")
    end.

End Addressing.

(** Modelled from the spec: [_find_content_from_name] as the spec describes
    it, the first segment of the id looked up in [_content_pointer]. *)
Definition find_content_by_first_segment (self : Node) (id : string)
    : result nat :=
  s ← index (split "_"%char id) 0;
  match _content_pointer self !! s with
  | Some i => Ok i
  | None => Raise (KeyError s)
  end.

(** ** MAGIC METHODS *)

Definition __copy__ (self : Node) : result Node :=
  Raise (AttributeError (_error_message self +:+ "A Node cannot be copied")).

Definition __deepcopy__ {M : Type} (self : Node) (memo : M) : result Node :=
  Raise (AttributeError (_error_message self +:+ "A Node cannot be copied")).

(** ** What the specification says the combination computes *)

(** The numeric value of a scalar weight. *)
Definition scalar_value (w : weight) : option num :=
  match w with
  | WFloat y | WScalar y => Some y
  | WList _ => None
  end.

(** Scalar weights: position [k] of the result is the sum over the Units of
    their [k]-th output times their weight, the sum starting from the first
    Unit's product.  [ows] lists each Unit's outputs with its weight. *)
Definition weighted_sum (ows : list (list num * num)) (k : nat)
    : option num :=
  match ows with
  | [] => None
  | ow0 :: rest =>
      foldl (λ acc ow, a ← acc; x ← ow.1 !! k; Some (add a (mul x ow.2)))
            ((λ x, mul x ow0.2) <$> ow0.1 !! k) rest
  end.

(** Mask weights: how many of its own outputs a Unit with mask [w] has used
    before position [j], one for each entry of [w] that is not null. *)
Definition consumed (w : list (option num)) (j : nat) : nat :=
  length (filter (λ x, is_Some x) (take j w)).

(** What a Unit with mask [w] and outputs [o] contributes at position [j]:
    nothing where its entry is null, else the entry times its next unused
    output. *)
Definition contribution (w : list (option num)) (o : list num) (j : nat)
    : option num :=
  match w !! j with
  | Some (Some wj) => (λ x, mul x wj) <$> o !! consumed w j
  | _ => None
  end.

(** A later Unit accumulates its contribution on top of what is there. *)
Definition accumulate (j : nat) (acc : num)
    (wo : list (option num) * list num) : num :=
  match contribution wo.1 wo.2 j with
  | Some c => add acc c
  | None => acc
  end.

(** Position [j] of the result: the first Unit initialises it, with [0]
    where its entry is null, and the later Units accumulate. *)
Definition mask_sum (wo0 : list (option num) * list num)
    (rest : list (list (option num) * list num)) (j : nat) : num :=
  foldl (accumulate j) (default zero (contribution wo0.1 wo0.2 j)) rest.

(** The message of the unknown-member error. *)
Definition unknown_member (self : Node) (kind name : string) : string :=
  _error_message self +:+ "the " +:+ kind +:+ " " +:+ name
    +:+ " does not exist.".

(** Two Nodes constructed one after the other over the same Units: the
    Nodes, and the store after both constructions. *)
Definition two_nodes (units : list Unit)
    (weights1 : list weight) (area1 : num) (id1 : string)
    (weights2 : list weight) (area2 : num) (id2 : string)
    (shared_parameters : bool) (σ : list (gmap string num))
    : Node * Node * list (gmap string num) :=
  let r1 := __init__ units weights1 area1 id1 shared_parameters σ in
  let r2 := __init__ units weights2 area2 id2 shared_parameters r1.2 in
  (r1.1, r2.1, r2.2).

(** The state of the loop of [__init__] without [shared_parameters], after
    the Units [done]: the Unit stored at [j] is a duplicate of [done[j]], and
    its parameters have been prefixed once for itself and once for every Unit
    after it. *)
Definition deep_invariant (id : string) (σ0 : list (gmap string num))
    (done : list Unit)
    (st : list Unit * list (gmap string num)) : Prop :=
  length st.1 = length done
  ∧ length st.2 = length σ0 + 2 * length done
  ∧ (∀ j h, done !! j = Some h →
       st.1 !! j = Some (with_dicts h (length σ0 + 2 * j)
                                      (S (length σ0 + 2 * j)))
       ∧ st.2 !! (length σ0 + 2 * j)
         = Some (Nat.iter (length done - j) (unit_add_prefix_parameters h id)
                   (default ∅ (σ0 !! parameters h))))
  ∧ (∀ l, l < length σ0 → st.2 !! l = σ0 !! l).

(** A text reports [part] when [part] occurs in it. *)
Definition reports (text part : string) : Prop :=
  ∃ before after, text = before +:+ part +:+ after.

End Node.

Arguments weight : clear implicits.
Arguments pyobj : clear implicits.
Arguments Unit : clear implicits.
Arguments Node : clear implicits.

(** ** Examples *)

(** Modelled from the spec: [add_prefix_parameters(prefix)] and
    [add_prefix_states(prefix)] of a Unit put the prefix and an underscore
    before every name of the dictionary; a name that has the prefix among
    its segments already is left as it is, so that a name is prefixed
    once. *)
Definition prefix_name (prefix name : string) : string :=
  if bool_decide (prefix ∈ split "_" name) then name
  else prefix +:+ "_" +:+ name.

Definition prefix_names (prefix : string) (d : gmap string float)
    : gmap string float :=
  list_to_map ((λ kv, (prefix_name prefix kv.1, kv.2)) <$> map_to_list d).

(** The members of the example Units: the field [id], a method that returns,
    and a method that raises an [AttributeError] while it runs. *)
Definition example_getattr (name attribute : string)
    : option (pyobj string) :=
  if decide (attribute = "id") then Some (Data name)
  else if decide (attribute = "get_parameters_name") then
    Some (Method "<bound method Unit.get_parameters_name>"
            (λ _, Ok (Data "[]")))
  else if decide (attribute = "reset_states") then
    Some (Method "<bound method Unit.reset_states>"
            (λ _, Raise (AttributeError
                           "'Unit' object has no attribute '_layers'")))
  else None.

(** A Unit with the given id, dictionaries and output fluxes. *)
Definition example_unit (name : string) (p s : nat) (out : list float)
    : Unit float string :=
  {| unit_id := name;
     parameters := p;
     states := s;
     unit_get_output := λ _ _, Ok out;
     unit_getattr := example_getattr name;
     unit_get_internal := λ id attribute, Ok (Data (id +:+ "." +:+ attribute));
     unit_call_internal :=
       λ id method _, Ok (Data (id +:+ "." +:+ method +:+ "()"));
     unit_add_prefix_parameters := prefix_names;
     unit_add_prefix_states := prefix_names |}.

Definition example_store : list (gmap string float) :=
  [ {["k" := 1.5%float]}; {["S0" := 10%float]};
    {["k" := 2.5%float]}; {["S0" := 20%float]} ].

Definition example_units (outA outB : list float)
    : list (Unit float string) :=
  [example_unit "A" 0 1 outA; example_unit "B" 2 3 outB].

(** [Node([A, B], weights, 1.0, 'n1', shared_parameters)], then
    [set_input([])]. *)
Definition example_node (weights : list (weight float))
    (outA outB : list float) (shared_parameters : bool)
    : Node float string :=
  set_input
    (__init__ (example_units outA outB) weights 1%float "n1"
       shared_parameters example_store).1
    [].

(** ** Counting separators *)

(** How many times the character [c] occurs in [s]. *)
Fixpoint count_char (c : Ascii.ascii) (s : string) : nat :=
  match s with
  | EmptyString => 0
  | String c' s' => (if Ascii.eqb c' c then 1 else 0) + count_char c s'
  end.

(** ** More examples *)

(** A Unit whose [get_output] raises [e]. *)
Definition failing_unit (name : string) (p s : nat) (e : exception)
    : Unit float string :=
  {| unit_id := name;
     parameters := p;
     states := s;
     unit_get_output := λ _ _, Raise e;
     unit_getattr := example_getattr name;
     unit_get_internal := λ id attribute, Ok (Data (id +:+ "." +:+ attribute));
     unit_call_internal :=
       λ id method _, Ok (Data (id +:+ "." +:+ method +:+ "()"));
     unit_add_prefix_parameters := prefix_names;
     unit_add_prefix_states := prefix_names |}.

(** A Unit that counts, under the name [calls] of its parameters, how often
    its [add_prefix_parameters] has been called. *)
Definition count_call (prefix : string) (d : gmap string float)
    : gmap string float :=
  <["calls" := (default 0 (d !! "calls") + 1)%float]> d.

Definition counting_unit (name : string) (p s : nat) : Unit float string :=
  {| unit_id := name;
     parameters := p;
     states := s;
     unit_get_output := λ _ _, Ok [];
     unit_getattr := example_getattr name;
     unit_get_internal := λ id attribute, Ok (Data (id +:+ "." +:+ attribute));
     unit_call_internal :=
       λ id method _, Ok (Data (id +:+ "." +:+ method +:+ "()"));
     unit_add_prefix_parameters := count_call;
     unit_add_prefix_states := prefix_names |}.

(** [Node(units, weights, 1.0, 'n1')], then [set_input([])]. *)
Definition example_node_of (units : list (Unit float string))
    (weights : list (weight float)) : Node float string :=
  set_input (__init__ units weights 1%float "n1" true example_store).1 [].

(** * Properties *)

Section Loops.
Context {A S : Type}.

Lemma for_each_app (xs ys : list A) (body : A → S → result S) (s : S) :
  for_each (xs ++ ys) body s = s' ← for_each xs body s; for_each ys body s'.
Proof.
  revert s. induction xs as [|x xs IH]; intros s; simpl; [done|].
  destruct (body x s); simpl; [apply IH | done].
Qed.

(** The invariant rule for [for j in range(a, a + n)]. *)
Lemma for_each_seq_inv (P : nat → S → Prop) (body : nat → S → result S)
    (a n : nat) (s : S) :
  P a s →
  (∀ j s, a ≤ j < a + n → P j s → ∃ s', body j s = Ok s' ∧ P (Datatypes.S j) s') →
  ∃ s', for_each (seq a n) body s = Ok s' ∧ P (a + n) s'.
Proof.
  revert a s. induction n as [|n IH]; intros a s Hs Hbody; simpl.
  - exists s. by rewrite Nat.add_0_r.
  - destruct (Hbody a s) as (s1 & Hb & Hs1); [lia|done|].
    rewrite Hb. simpl.
    destruct (IH (Datatypes.S a) s1) as (s2 & Hf & Hs2); [done| |].
    + intros j s' Hj. apply Hbody. lia.
    + exists s2. split; [done|].
      by replace (a + Datatypes.S n) with (Datatypes.S a + n) by lia.
Qed.

End Loops.

Section Combination.
Context {num : Type} `{!Arith num} {value : Type}.
Implicit Types (self : Node num value) (h : Unit num value).
Implicit Types (w : weight num) (out loc_out : list num).

Lemma set_inputs_from self inp (hs : list (Unit num value))
    (done : list (Unit num value * list num)) :
  input self = Some inp →
  for_each hs (λ h done, i ← self_input self; Ok (done ++ [(h, i)])) done
  = Ok (done ++ ((λ h, (h, inp)) <$> hs)).
Proof.
  intros Hin. unfold self_input. rewrite Hin.
  revert done. induction hs as [|h hs IH]; intros done; simpl.
  - by rewrite app_nil_r.
  - rewrite IH. by rewrite <- app_assoc.
Qed.

Lemma set_inputs_ok self inp :
  input self = Some inp →
  set_inputs self = Ok ((λ h, (h, inp)) <$> _content self).
Proof. intros Hin. unfold set_inputs. by rewrite (set_inputs_from _ inp). Qed.

Lemma scale_from loc_out w y (done : list num) :
  scalar_value w = Some y →
  for_each loc_out (λ o done, p ← mul_weight o w; Ok (done ++ [p])) done
  = Ok (done ++ ((λ o, mul o y) <$> loc_out)).
Proof.
  intros Hw. revert done.
  induction loc_out as [|o os IH]; intros done; simpl.
  - by rewrite app_nil_r.
  - destruct w; simplify_eq/=; rewrite IH; by rewrite <- app_assoc.
Qed.

Lemma scale_scalar loc_out w y :
  scalar_value w = Some y →
  scale loc_out w = Ok ((λ o, mul o y) <$> loc_out).
Proof. intros Hw. unfold scale. by rewrite (scale_from _ _ y). Qed.

(** [for j in range(len(output)): output[j] += loc_out[j] * w] *)
Lemma uniform_accumulate loc_out w y out :
  scalar_value w = Some y →
  length out ≤ length loc_out →
  ∃ out',
    for_each (seq 0 (length out))
      (λ j out,
         o ← index out j;
         x ← index loc_out j;
         p ← mul_weight x w;
         Ok (<[j := add o p]> out))
      out = Ok out'
    ∧ length out' = length out
    ∧ ∀ k, out' !! k
           = (o ← out !! k; x ← loc_out !! k; Some (add o (mul x y))).
Proof.
  intros Hw Hlen.
  destruct (for_each_seq_inv
    (λ j s, length s = length out
            ∧ ∀ k, s !! k = if decide (k < j)
                            then o ← out !! k; x ← loc_out !! k;
                                 Some (add o (mul x y))
                            else out !! k)
    (λ j out,
         o ← index out j;
         x ← index loc_out j;
         p ← mul_weight x w;
         Ok (<[j := add o p]> out))
    0 (length out) out) as (out' & Hrun & Hlen' & Hout').
  - split; [done|]. intros k. case_decide; [lia|done].
  - intros j s Hj [Hs Hk].
    destruct (lookup_lt_is_Some_2 out j) as [o Ho]; [lia|].
    destruct (lookup_lt_is_Some_2 loc_out j) as [x Hx]; [lia|].
    assert (s !! j = Some o) as Hsj.
    { rewrite Hk. case_decide; [lia|done]. }
    exists (<[j := add o (mul x y)]> s). split.
    + unfold index. rewrite Hsj, Hx. simpl.
      destruct w; by simplify_eq/=.
    + split; [by rewrite length_insert|].
      intros k. destruct (decide (k = j)) as [->|Hne].
      * rewrite list_lookup_insert_eq by lia.
        case_decide; [|lia]. by rewrite Ho, Hx.
      * rewrite list_lookup_insert_ne by done.
        rewrite Hk. repeat case_decide; try lia; done.
  - exists out'. split; [done|]. split; [done|].
    intros k. rewrite Hout'. case_decide; [done|].
    rewrite (lookup_ge_None_2 out k) by lia. done.
Qed.

(** The Units after the first, in the branch for float weights. *)
Lemma uniform_rest solve inp (hs : list (Unit num value)) :
  ∀ (wts : list (weight num)) (ws : list num) (os : list (list num))
    (a : nat) out0,
  Forall2 (λ w y, scalar_value w = Some y) wts ws →
  Forall2 (λ h o, unit_get_output h inp solve = Ok o) hs os →
  length hs = length wts →
  Forall (λ o, length o = length out0) os →
  ∃ out,
    for_each
      (zip (seq (S a) (length (zip ((λ h, (h, inp)) <$> hs) wts)))
           (zip ((λ h, (h, inp)) <$> hs) wts))
      (uniform_body solve) (Some out0) = Ok (Some out)
    ∧ length out = length out0
    ∧ ∀ k, out !! k
           = foldl (λ acc ow,
                      a ← acc; x ← ow.1 !! k; Some (add a (mul x ow.2)))
                   (out0 !! k) (zip os ws).
Proof.
  induction hs as [|h hs IH]; intros wts ws os a out0 Hws Hos Hlen Heq.
  - destruct wts; [|done]. inversion Hws; inversion Hos; subst. simpl.
    by exists out0.
  - destruct wts as [|w wts]; [done|].
    inversion Hws as [|? y ? ws' Hw Hws']; subst.
    inversion Hos as [|? o ? os' Ho Hos']; subst.
    inversion Heq as [|? ? Hlo Heq']; subst.
    destruct (uniform_accumulate o w y out0 Hw) as (out1 & Hrun & Hl1 & Hk1);
      [lia|].
    destruct (IH wts ws' os' (S a) out1 Hws' Hos') as (out & Hrest & Hl & Hk).
    { simpl in Hlen. lia. }
    { by rewrite Hl1. }
    exists out. split; [|split].
    + simpl. rewrite Ho. simpl. rewrite Hrun. simpl. exact Hrest.
    + by rewrite Hl, Hl1.
    + intros k. rewrite Hk. simpl. by rewrite Hk1.
Qed.

(** C1, amended: for every Node whose weights are scalars, the first of them
    a float instance, and whose Units produce output sequences of equal
    length, [get_output] returns at every position [k] the sum over the Units
    of their [k]-th output times their weight, the accumulation starting from
    the first Unit's scaled output. *)
Theorem get_output_weighted_sum self solve inp
    (h0 : Unit num value) (hs : list (Unit num value))
    (w0 : num) (wts : list (weight num)) (ws : list num)
    (o0 : list num) (os : list (list num)) :
  input self = Some inp →
  _content self = h0 :: hs →
  _weights self = WFloat w0 :: wts →
  Forall2 (λ w y, scalar_value w = Some y) wts ws →
  unit_get_output h0 inp solve = Ok o0 →
  Forall2 (λ h o, unit_get_output h inp solve = Ok o) hs os →
  length hs = length wts →
  Forall (λ o, length o = length o0) os →
  ∃ out,
    get_output self solve = Ok out
    ∧ ∀ k, out !! k = weighted_sum ((o0, w0) :: zip os ws) k.
Proof.
  intros Hin Hc Hw Hws Ho0 Hos Hlen Heq.
  destruct (uniform_rest solve inp hs wts ws os 0
              ((λ o, mul o w0) <$> o0) Hws Hos Hlen)
    as (out & Hrest & _ & Hk).
  { by rewrite length_fmap. }
  exists out. split.
  - unfold get_output. rewrite (set_inputs_ok self inp Hin), Hc, Hw. simpl.
    unfold uniform_branch, enumerate. simpl. rewrite Ho0. simpl.
    rewrite (scale_scalar o0 (WFloat w0) w0) by done.
    unfold fmap in Hrest |- *. simpl. rewrite Hrest. done.
  - intros k. rewrite Hk. unfold weighted_sum. simpl.
    by rewrite list_lookup_fmap.
Qed.

(** *** Mask weights *)

Lemma consumed_S (m : list (option num)) (j : nat) (x : option num) :
  m !! j = Some x →
  consumed m (S j)
  = consumed m j + match x with Some _ => 1 | None => 0 end.
Proof.
  intros Hj. unfold consumed. rewrite (take_S_r _ _ _ Hj), filter_app.
  rewrite length_app. f_equal.
  destruct x; [rewrite filter_cons_True by done | rewrite filter_cons_False];
    [done|done|]. by intros [? ?].
Qed.

Lemma consumed_le (m : list (option num)) (j k : nat) :
  j ≤ k → consumed m j ≤ consumed m k.
Proof.
  induction 1 as [|k _ IH]; [done|].
  etrans; [exact IH|].
  destruct (m !! k) as [x|] eqn:Hk.
  - rewrite (consumed_S _ _ _ Hk). lia.
  - apply lookup_ge_None in Hk. unfold consumed.
    by rewrite !take_ge by lia.
Qed.

Lemma contribution_null (m : list (option num)) (o : list num) (j : nat) :
  m !! j = Some None → contribution m o j = None.
Proof. intros Hj. unfold contribution. by rewrite Hj. Qed.

Lemma contribution_beyond (m : list (option num)) (o : list num) (j : nat) :
  length m ≤ j → contribution m o j = None.
Proof.
  intros Hj. unfold contribution. by rewrite (lookup_ge_None_2 m j Hj).
Qed.

(** The first Unit: [output] is built by [append]. *)
Lemma mask_first (m0 : list (option num)) (o0 : list num) :
  consumed m0 (length m0) ≤ length o0 →
  ∃ st,
    for_each (seq 0 (length m0))
      (λ j (st : list num * nat),
         wj ← getitem (WList m0) j;
         match wj with
         | None => Ok (st.1 ++ [zero], st.2)
         | Some wj =>
             x ← index o0 st.2;
             Ok (st.1 ++ [mul x wj], S st.2)
         end)
      ([], 0) = Ok st
    ∧ st.1 = (λ j, default zero (contribution m0 o0 j)) <$> seq 0 (length m0).
Proof.
  intros Henough.
  destruct (for_each_seq_inv
    (λ j (st : list num * nat),
       st.1 = (λ j, default zero (contribution m0 o0 j)) <$> seq 0 j
       ∧ st.2 = consumed m0 j)
    (λ j (st : list num * nat),
         wj ← getitem (WList m0) j;
         match wj with
         | None => Ok (st.1 ++ [zero], st.2)
         | Some wj =>
             x ← index o0 st.2;
             Ok (st.1 ++ [mul x wj], S st.2)
         end)
    0 (length m0) ([], 0)) as (st & Hrun & Hst & _).
  - done.
  - intros j [out c] Hj [Hout Hc]. simpl in Hout, Hc. subst out c.
    destruct (lookup_lt_is_Some_2 m0 j) as [x Hx]; [lia|].
    pose proof (consumed_S m0 j x Hx) as HS.
    pose proof (consumed_le m0 (S j) (length m0)) as Hle.
    cbv beta. rewrite seq_S, fmap_app.
    simpl. unfold index. rewrite Hx. simpl.
    destruct x as [wj|]; simpl.
    + destruct (lookup_lt_is_Some_2 o0 (consumed m0 j)) as [y Hy]; [lia|].
      rewrite Hy. simpl. eexists. split; [done|]. simpl. split; [|lia].
      f_equal. unfold contribution. by rewrite Hx, Hy.
    + eexists. split; [done|]. simpl. split; [|lia].
      f_equal. by rewrite (contribution_null _ _ _ Hx).
  - by exists st.
Qed.

(** A later Unit: [output] is updated in place. *)
Lemma mask_later (m : list (option num)) (o out0 : list num) :
  consumed m (length m) ≤ length o →
  length m ≤ length out0 →
  ∃ st out,
    for_each (seq 0 (length m))
      (λ j (st : option (list num) * nat),
         wj ← getitem (WList m) j;
         match wj with
         | None => Ok st
         | Some wj =>
             out ← bound st.1;
             o' ← index out j;
             x ← index o st.2;
             Ok (Some (<[j := add o' (mul x wj)]> out), S st.2)
         end)
      (Some out0, 0) = Ok st
    ∧ st.1 = Some out
    ∧ length out = length out0
    ∧ ∀ k, out !! k = (λ x, accumulate k x (m, o)) <$> out0 !! k.
Proof.
  intros Henough Hfits.
  destruct (for_each_seq_inv
    (λ j (st : option (list num) * nat),
       ∃ out, st = (Some out, consumed m j)
              ∧ length out = length out0
              ∧ ∀ k, out !! k
                     = if decide (k < j)
                       then (λ x, accumulate k x (m, o)) <$> out0 !! k
                       else out0 !! k)
    (λ j (st : option (list num) * nat),
         wj ← getitem (WList m) j;
         match wj with
         | None => Ok st
         | Some wj =>
             out ← bound st.1;
             o' ← index out j;
             x ← index o st.2;
             Ok (Some (<[j := add o' (mul x wj)]> out), S st.2)
         end)
    0 (length m) (Some out0, 0)) as (st & Hrun & out & -> & Hlen & Hout).
  - exists out0. split; [done|]. split; [done|].
    intros k. case_decide; [lia|done].
  - intros j st Hj (out & -> & Hlen & Hout).
    destruct (lookup_lt_is_Some_2 m j) as [x Hx]; [lia|].
    pose proof (consumed_S m j x Hx) as HS.
    pose proof (consumed_le m (S j) (length m)) as Hle.
    simpl. unfold index. rewrite Hx. simpl.
    destruct x as [wj|]; simpl.
    + destruct (lookup_lt_is_Some_2 out0 j) as [a Ha]; [lia|].
      destruct (lookup_lt_is_Some_2 o (consumed m j)) as [y Hy]; [lia|].
      assert (out !! j = Some a) as Hoj.
      { rewrite Hout. case_decide; [lia|done]. }
      rewrite Hoj, Hy. simpl. eexists. split; [done|].
      exists (<[j := add a (mul y wj)]> out). split; [f_equal; lia|].
      split; [by rewrite length_insert|].
      intros k. destruct (decide (k = j)) as [->|Hne].
      * rewrite list_lookup_insert_eq by lia. case_decide; [|lia].
        rewrite Ha. simpl. unfold accumulate, contribution. simpl.
        by rewrite Hx, Hy.
      * rewrite list_lookup_insert_ne by done. rewrite Hout.
        repeat case_decide; try lia; done.
    + eexists. split; [done|]. exists out. split; [f_equal; lia|].
      split; [done|]. intros k. rewrite Hout.
      destruct (decide (k = j)) as [->|Hne].
      * case_decide; [lia|]. case_decide; [|lia].
        unfold accumulate. simpl. rewrite (contribution_null _ _ _ Hx).
        by destruct (out0 !! j).
      * repeat case_decide; try lia; done.
  - exists (Some out, consumed m (0 + length m)), out.
    split; [done|]. split; [done|]. split; [done|].
    intros k. rewrite Hout. case_decide; [done|].
    unfold accumulate. simpl. rewrite contribution_beyond by lia.
    by destruct (out0 !! k).
Qed.

(** The Units after the first, in the branch for mask weights. *)
Lemma mask_rest solve inp (hs : list (Unit num value)) :
  ∀ (ms : list (list (option num))) (os : list (list num))
    (a : nat) out0,
  Forall2 (λ h o, unit_get_output h inp solve = Ok o) hs os →
  length hs = length ms →
  Forall2 (λ m o, consumed m (length m) ≤ length o
                  ∧ length m ≤ length out0) ms os →
  ∃ out,
    for_each
      (zip (seq (S a)
              (length (zip ((λ h, (h, inp)) <$> hs) (WList <$> ms))))
           (zip ((λ h, (h, inp)) <$> hs) (WList <$> ms)))
      (mask_body solve) (Some out0) = Ok (Some out)
    ∧ length out = length out0
    ∧ ∀ k, out !! k = (λ x, foldl (accumulate k) x (zip ms os)) <$> out0 !! k.
Proof.
  induction hs as [|h hs IH]; intros ms os a out0 Hos Hlen Hms.
  - destruct ms; [|done]. inversion Hos; subst. simpl.
    exists out0. split; [done|]. split; [done|].
    intros k. by destruct (out0 !! k).
  - destruct ms as [|m ms]; [done|].
    inversion Hos as [|? o ? os' Ho Hos']; subst.
    inversion Hms as [|? ? ? ? [Henough Hfits] Hms']; subst.
    destruct (mask_later m o out0 Henough Hfits)
      as (st & out1 & Hrun & Hst & Hl1 & Hk1).
    destruct (IH ms os' (S a) out1 Hos') as (out & Hrest & Hl & Hk).
    { simpl in Hlen. lia. }
    { rewrite Hl1. exact Hms'. }
    exists out. split; [|split].
    + rewrite !fmap_cons. simpl. rewrite Ho. simpl.
      unfold fmap in Hrun, Hrest |- *. simpl in Hrun |- *.
      rewrite Hrun. simpl. rewrite Hst. exact Hrest.
    + by rewrite Hl, Hl1.
    + intros k. rewrite Hk, Hk1. simpl. by destruct (out0 !! k).
Qed.

Lemma mask_sum_null (m0 : list (option num)) (o0 : list num)
    (ms : list (list (option num))) (os : list (list num)) (j : nat) :
  m0 !! j = Some None →
  Forall (λ m, m !! j = Some None) ms →
  mask_sum (m0, o0) (zip ms os) j = zero.
Proof.
  intros H0 Hms. unfold mask_sum. simpl.
  rewrite (contribution_null _ _ _ H0). simpl.
  revert os. induction Hms as [|m ms Hm _ IH]; intros os; [done|].
  destruct os as [|o os]; [done|]. simpl.
  unfold accumulate at 2. simpl. rewrite (contribution_null _ _ _ Hm).
  apply IH.
Qed.

(** C2: under the per-flux-mask convention [get_output] computes position
    [j] as [mask_sum] says: a Unit whose entry at [j] is null contributes
    nothing and uses none of its outputs, a Unit with entry [w] contributes
    [w] times its next unused output, the first Unit initialises the position
    ([0] where its entry is null) and the later ones accumulate; a position
    that is null for every Unit is [0], and the call returns. *)
Theorem get_output_mask self solve inp
    (h0 : Unit num value) (hs : list (Unit num value))
    (m0 : list (option num)) (ms : list (list (option num)))
    (o0 : list num) (os : list (list num)) :
  input self = Some inp →
  _content self = h0 :: hs →
  _weights self = WList m0 :: (WList <$> ms) →
  unit_get_output h0 inp solve = Ok o0 →
  Forall2 (λ h o, unit_get_output h inp solve = Ok o) hs os →
  length hs = length ms →
  consumed m0 (length m0) ≤ length o0 →
  Forall2 (λ m o, consumed m (length m) ≤ length o
                  ∧ length m ≤ length m0) ms os →
  ∃ out,
    get_output self solve = Ok out
    ∧ length out = length m0
    ∧ (∀ j, j < length m0 →
            out !! j = Some (mask_sum (m0, o0) (zip ms os) j))
    ∧ (∀ j, j < length m0 →
            m0 !! j = Some None →
            Forall (λ m, m !! j = Some None) ms →
            out !! j = Some zero).
Proof.
  intros Hin Hc Hw Ho0 Hos Hlen Henough Hms.
  destruct (mask_first m0 o0 Henough) as ([out0 c] & Hfirst & Hout0).
  simpl in Hout0.
  assert (length out0 = length m0) as Hl0.
  { by rewrite Hout0, length_fmap, length_seq. }
  destruct (mask_rest solve inp hs ms os 0 out0 Hos Hlen)
    as (out & Hrest & Hl & Hk).
  { by rewrite Hl0. }
  assert (∀ j, j < length m0 →
               out !! j = Some (mask_sum (m0, o0) (zip ms os) j)) as Hsum.
  { intros j Hj. rewrite Hk, Hout0, list_lookup_fmap.
    rewrite lookup_seq_lt by done. done. }
  exists out. split; [|split; [|split]].
  - unfold get_output. rewrite (set_inputs_ok self inp Hin), Hc, Hw.
    rewrite fmap_cons. simpl.
    unfold mask_branch, enumerate. simpl. rewrite Ho0. simpl.
    unfold fmap in Hfirst, Hrest |- *. simpl in Hfirst |- *.
    rewrite Hfirst. simpl. rewrite Hrest. done.
  - by rewrite Hl, Hl0.
  - exact Hsum.
  - intros j Hj Hj0 Hjs. rewrite (Hsum j Hj). f_equal.
    by apply mask_sum_null.
Qed.

End Combination.

Section BranchChoice.
Context {num : Type} `{!Arith num} {value : Type}.
Implicit Types (self : Node num value) (h : Unit num value).

(** C9: the branch for scalar weights is taken exactly when the first weight
    is a float instance.  With any other first weight, a scalar such as the
    int [1] included, the weights go through the branch for masks, where
    [len(w)] of a scalar raises; the weights after the first play no part in
    the choice. *)
Theorem get_output_branch_choice self solve
    (w0 : weight num) (ws : list (weight num))
    (content : list (Unit num value * list num)) :
  _weights self = w0 :: ws →
  set_inputs self = Ok content →
  (isinstance_float w0 = true ↔ ∃ y, w0 = WFloat y)
  ∧ (isinstance_float w0 = true →
       get_output self solve
       = uniform_branch solve content (w0 :: ws) ≫= return_routed self)
  ∧ (isinstance_float w0 = false →
       get_output self solve
       = mask_branch solve content (w0 :: ws) ≫= return_routed self)
  ∧ (∀ y h inp rest o,
       w0 = WScalar y →
       content = (h, inp) :: rest →
       unit_get_output h inp solve = Ok o →
       get_output self solve = Raise TypeError).
Proof.
  intros Hw Hin.
  assert (∀ b, isinstance_float w0 = b →
               get_output self solve
               = (if b then uniform_branch solve content (w0 :: ws)
                  else mask_branch solve content (w0 :: ws))
                 ≫= return_routed self) as Hget.
  { intros b Hb. unfold get_output. rewrite Hin, Hw. simpl. by rewrite Hb. }
  split; [|split; [|split]].
  - destruct w0; simpl; split; try done; try (intros [? ?]; done); eauto.
  - intros Hb. by rewrite (Hget true Hb).
  - intros Hb. by rewrite (Hget false Hb).
  - intros y h inp rest o -> -> Ho. rewrite (Hget false eq_refl).
    unfold mask_branch, enumerate. simpl. by rewrite Ho.
Qed.

End BranchChoice.

Lemma append_assoc (s1 s2 s3 : string) :
  (s1 +:+ s2) +:+ s3 = s1 +:+ s2 +:+ s3.
Proof.
  induction s1 as [|c s1 IH]; [done|]. exact (f_equal (String c) IH).
Qed.

Lemma error_message_reports_id (id rest : string) :
  reports (error_message_for id +:+ rest) id.
Proof.
  exists "module : superflexPy, Node : ", ("," +:+ " Error message : " +:+ rest).
  unfold error_message_for.
  by rewrite !append_assoc.
Qed.

Lemma message_reports_member (prefix kind name rest : string) :
  reports (prefix +:+ kind +:+ name +:+ rest) name.
Proof. exists (prefix +:+ kind), rest. by rewrite append_assoc. Qed.

Section AddressingProperties.
Context {num : Type} `{!Arith num} {value : Type}.
Implicit Types (self : Node num value) (h : Unit num value).
Variable find : Node num value → string → result nat.

Lemma find_attribute_found self id k :
  find self id = Ok k →
  _find_attribute_from_name find self id
  = Ok (k, bool_decide (length (split "_" id) = 3)).
Proof.
  intros Hk. unfold _find_attribute_from_name. rewrite Hk. simpl.
  by case_decide; case_bool_decide.
Qed.

Lemma get_internal_direct self id name k h :
  find self id = Ok k →
  _content self !! k = Some h →
  length (split "_" id) ≠ 3 →
  get_internal find self id name
  = match unit_getattr h name with
    | Some o => Ok o
    | None => Raise (AttributeError (unknown_member self "attribute" name))
    end.
Proof.
  intros Hk Hh Hn. unfold get_internal.
  rewrite (find_attribute_found _ _ _ Hk). simpl.
  rewrite bool_decide_eq_false_2 by done.
  unfold index, getattr. rewrite Hh. simpl.
  by destruct (unit_getattr h name).
Qed.

Lemma call_internal_direct self id name kwargs k h :
  find self id = Ok k →
  _content self !! k = Some h →
  length (split "_" id) ≠ 3 →
  call_internal find self id name kwargs
  = match unit_getattr h name with
    | Some (Method text call) =>
        except_AttributeError (call kwargs)
          (unknown_member self "method" text)
    | Some (Data _) => Raise TypeError
    | None => Raise (AttributeError (unknown_member self "method" name))
    end.
Proof.
  intros Hk Hh Hn. unfold call_internal.
  rewrite (find_attribute_found _ _ _ Hk). simpl.
  rewrite bool_decide_eq_false_2 by done.
  unfold index, getattr. rewrite Hh. simpl.
  by destruct (unit_getattr h name) as [[]|].
Qed.

(** C6: when the id splits into exactly three segments, [get_internal] and
    [call_internal] hand the whole id and the name to the selected Unit's own
    [get_internal] and [call_internal]; otherwise they resolve the name on
    the selected Unit itself, [get_internal] returning the attribute and
    [call_internal] calling the method with the keyword arguments. *)
Theorem internal_delegates_or_resolves self id name kwargs k h :
  find self id = Ok k →
  _content self !! k = Some h →
  (length (split "_" id) = 3 →
     get_internal find self id name = unit_get_internal h id name
     ∧ call_internal find self id name kwargs
       = unit_call_internal h id name kwargs)
  ∧ (length (split "_" id) ≠ 3 →
     (∀ o, unit_getattr h name = Some o →
           get_internal find self id name = Ok o)
     ∧ (∀ text call,
          unit_getattr h name = Some (Method text call) →
          (∀ e, call kwargs ≠ Raise (AttributeError e)) →
          call_internal find self id name kwargs = call kwargs)).
Proof.
  intros Hk Hh. split.
  - intros H3. unfold get_internal, call_internal.
    rewrite (find_attribute_found _ _ _ Hk). simpl.
    rewrite bool_decide_eq_true_2 by done.
    unfold index. by rewrite Hh.
  - intros Hn. split.
    + intros o Ho. rewrite (get_internal_direct _ _ _ _ _ Hk Hh Hn).
      by rewrite Ho.
    + intros text call Hm Hcall.
      rewrite (call_internal_direct _ _ _ _ _ _ Hk Hh Hn), Hm.
      destruct (call kwargs) as [r|[]] eqn:Hr; try done.
      by destruct (Hcall msg).
Qed.

(** C10: a method that exists on the selected Unit and raises an
    attribute-lookup error while it runs makes [call_internal] raise the
    unknown-member error of the Node in place of the method's own error; the
    message names the method, and the Node's id through the error prefix that
    [__init__] sets. *)
Theorem call_internal_masks_method_error self id name kwargs k h
    text call e :
  find self id = Ok k →
  _content self !! k = Some h →
  length (split "_" id) ≠ 3 →
  unit_getattr h name = Some (Method text call) →
  call kwargs = Raise (AttributeError e) →
  call_internal find self id name kwargs
  = Raise (AttributeError
             (_error_message self
                +:+ "the method " +:+ text +:+ " does not exist."))
  ∧ reports (_error_message self
               +:+ "the method " +:+ text +:+ " does not exist.") text
  ∧ (∀ node_id,
       _error_message self = error_message_for node_id →
       reports (_error_message self
                  +:+ "the method " +:+ text +:+ " does not exist.")
               node_id).
Proof.
  intros Hk Hh Hn Hm Hcall. split; [|split].
  - rewrite (call_internal_direct _ _ _ _ _ _ Hk Hh Hn), Hm, Hcall. done.
  - apply message_reports_member.
  - intros node_id ->. apply error_message_reports_id.
Qed.

(** The unknown-member error as the code raises it: on the selected Unit
    itself (an id that does not split into
    three segments), [get_internal] raises the unknown-member error exactly
    when the attribute does not exist; [call_internal] raises it when the
    method does not exist, and also when the method exists and raises an
    attribute-lookup error itself.  For an absent member the message names
    the requested member, and the Node's id through the error prefix that
    [__init__] sets.  The error is the result of the call: nothing is tried
    again. *)
Theorem unknown_member_error self id name kwargs k h :
  find self id = Ok k →
  _content self !! k = Some h →
  length (split "_" id) ≠ 3 →
  ((∃ msg, get_internal find self id name = Raise (AttributeError msg))
   ↔ unit_getattr h name = None)
  ∧ ((∃ msg, call_internal find self id name kwargs
             = Raise (AttributeError msg))
     ↔ unit_getattr h name = None
       ∨ ∃ text call e, unit_getattr h name = Some (Method text call)
                        ∧ call kwargs = Raise (AttributeError e))
  ∧ (unit_getattr h name = None →
       get_internal find self id name
       = Raise (AttributeError
                  (_error_message self
                     +:+ "the attribute " +:+ name +:+ " does not exist."))
       ∧ call_internal find self id name kwargs
         = Raise (AttributeError
                    (_error_message self
                       +:+ "the method " +:+ name +:+ " does not exist.")))
  ∧ (∀ kind,
       reports (_error_message self +:+ kind +:+ name +:+ " does not exist.")
               name
       ∧ ∀ node_id,
           _error_message self = error_message_for node_id →
           reports (_error_message self
                      +:+ kind +:+ name +:+ " does not exist.") node_id).
Proof.
  intros Hk Hh Hn.
  rewrite (get_internal_direct _ _ _ _ _ Hk Hh Hn).
  rewrite (call_internal_direct _ _ _ _ _ _ Hk Hh Hn).
  assert (∀ kind,
       reports (_error_message self +:+ kind +:+ name +:+ " does not exist.")
               name
       ∧ ∀ node_id,
           _error_message self = error_message_for node_id →
           reports (_error_message self
                      +:+ kind +:+ name +:+ " does not exist.") node_id)
    as Hreports.
  { intros kind. split; [apply message_reports_member|].
    intros node_id ->. apply error_message_reports_id. }
  destruct (unit_getattr h name) as [[v|text call]|] eqn:Hattr.
  - split; [|split; [|split]]; [| |done|done].
    + split; [intros [? ?]; done | done].
    + split; [intros [? ?]; done | intros [|(?&?&?&?&?)]; done].
  - split; [|split; [|split]]; [| |done|done].
    + split; [intros [? ?]; done | done].
    + split.
      * intros [msg Hmsg]. right. exists text, call.
        destruct (call kwargs) as [r|[]]; try done. eauto.
      * intros [|(text' & call' & e & Heq & Hcall)]; [done|].
        simplify_eq. rewrite Hcall. simpl. eauto.
  - split; [|split; [|split]].
    + split; eauto.
    + split; eauto.
    + done.
    + done.
Qed.

End AddressingProperties.

Section Copying.
Context {num : Type} `{!Arith num} {value : Type}.
Implicit Types (self : Node num value).

Lemma init_error_message (units : list (Unit num value))
    (weights : list (weight num)) (area : num) (id : string)
    (shared_parameters : bool) (σ : list (gmap string num)) :
  _error_message (__init__ units weights area id shared_parameters σ).1
  = error_message_for id.
Proof. done. Qed.

(** C8: [__copy__] and [__deepcopy__] raise on every Node, and never return
    one; on a Node as [__init__] builds it the message is the error prefix,
    which carries the Node's id, followed by "A Node cannot be copied". *)
Theorem copy_always_raises :
  (∀ self, __copy__ self
           = Raise (AttributeError
                      (_error_message self +:+ "A Node cannot be copied")))
  ∧ (∀ (M : Type) self (memo : M),
       __deepcopy__ self memo
       = Raise (AttributeError
                  (_error_message self +:+ "A Node cannot be copied")))
  ∧ (∀ self (copied : Node num value), __copy__ self ≠ Ok copied)
  ∧ (∀ (M : Type) self (memo : M) (copied : Node num value),
       __deepcopy__ self memo ≠ Ok copied)
  ∧ (∀ (units : list (Unit num value)) (weights : list (weight num))
       (area : num) (id : string) (shared_parameters : bool)
       (σ : list (gmap string num)),
       reports
         (_error_message
            (__init__ units weights area id shared_parameters σ).1
          +:+ "A Node cannot be copied") id).
Proof.
  split; [done|]. split; [done|]. split; [done|]. split; [done|].
  intros units weights area id shared_parameters σ.
  rewrite init_error_message. apply error_message_reports_id.
Qed.

End Copying.

Section Construction.
Context {num : Type} `{!Arith num} {value : Type}.
Implicit Types (h u : Unit num value) (c units : list (Unit num value)).
Implicit Types (σ : list (gmap string num)).

Lemma length_add_prefix_parameters c id σ :
  length (add_prefix_parameters c id σ) = length σ.
Proof.
  unfold add_prefix_parameters. revert σ.
  induction c as [|h c IH]; intros σ; simpl; [done|].
  by rewrite IH, length_alter.
Qed.

Lemma length_add_prefix_states c id σ :
  length (add_prefix_states c id σ) = length σ.
Proof.
  unfold add_prefix_states. revert σ.
  induction c as [|h c IH]; intros σ; simpl; [done|].
  by rewrite IH, length_alter.
Qed.

(** With [shared_parameters] the loop of [__init__] stores the Units it is
    given and leaves the store alone. *)
Lemma init_shared id units :
  ∀ c σ, foldl (init_body id true) (c, σ) units = (c ++ units, σ).
Proof.
  induction units as [|h units IH]; intros c σ; simpl.
  - by rewrite app_nil_r.
  - change (foldl (init_body id true) (c ++ [h], σ) units
            = (c ++ h :: units, σ)).
    rewrite IH. by rewrite <- app_assoc.
Qed.

(** Without it the loop stores Units whose dictionaries are new objects of
    the store. *)
Lemma init_deep id units :
  ∀ c σ, ∃ c',
    (foldl (init_body id false) (c, σ) units).1 = c ++ c'
    ∧ length (foldl (init_body id false) (c, σ) units).2
      = length σ + 2 * length units
    ∧ Forall (λ u, length σ ≤ parameters u
                   ∧ parameters u < length σ + 2 * length units) c'.
Proof.
  induction units as [|h units IH]; intros c σ; simpl.
  - exists []. rewrite app_nil_r. split; [done|]. split; [lia|done].
  - set (u := with_dicts h (length σ) (S (length σ))).
    set (σ1 := σ ++ [default ∅ (σ !! parameters h);
                     default ∅ (σ !! states h)]).
    change (foldl (init_body id false) (init_body id false (c, σ) h) units)
      with (foldl (init_body id false)
              (c ++ [u], add_prefix_parameters (c ++ [u]) id σ1) units).
    subst u σ1.
    destruct (IH (c ++ [with_dicts h (length σ) (S (length σ))])
                (add_prefix_parameters
                   (c ++ [with_dicts h (length σ) (S (length σ))]) id
                   (σ ++ [default ∅ (σ !! parameters h);
                          default ∅ (σ !! states h)])))
      as (c' & Hc & Hl & Hf).
    rewrite length_add_prefix_parameters, length_app in Hl, Hf.
    simpl in Hl, Hf.
    exists (with_dicts h (length σ) (S (length σ)) :: c').
    split; [by rewrite Hc, <- app_assoc|]. split; [lia|].
    constructor; [simpl; lia|].
    eapply Forall_impl; [exact Hf|]. simpl. intros u [? ?]. lia.
Qed.

Lemma get_set_parameter_same u1 u2 k v σ :
  parameters u1 = parameters u2 →
  parameters u1 < length σ →
  get_parameter u2 k (set_parameter u1 k v σ) = Some v.
Proof.
  intros Heq Hlt. unfold get_parameter, set_parameter. rewrite <- Heq.
  destruct (lookup_lt_is_Some_2 σ (parameters u1) Hlt) as [d Hd].
  rewrite list_lookup_alter, Hd. case_decide; [|done].
  simpl. apply lookup_insert_eq.
Qed.

Lemma get_set_parameter_other u1 u2 k k' v σ :
  parameters u1 ≠ parameters u2 →
  get_parameter u2 k' (set_parameter u1 k v σ) = get_parameter u2 k' σ.
Proof.
  intros Hne. unfold get_parameter, set_parameter.
  by rewrite list_lookup_alter_ne.
Qed.

(** The loop of [__init__] stores one Unit for each Unit it is given, in
    order and under the same id. *)
Lemma init_loop_ids id (shared_parameters : bool) units :
  ∀ c σ,
  unit_id <$> (foldl (init_body id shared_parameters) (c, σ) units).1
  = (unit_id <$> c) ++ (unit_id <$> units).
Proof.
  induction units as [|h units IH]; intros c σ; simpl.
  - by rewrite app_nil_r.
  - destruct shared_parameters.
    + change (init_body id true (c, σ) h) with (c ++ [h], σ).
      rewrite IH, fmap_app. simpl. by rewrite <- app_assoc.
    + change (init_body id false (c, σ) h)
        with (c ++ [with_dicts h (length σ) (S (length σ))],
              add_prefix_parameters
                (c ++ [with_dicts h (length σ) (S (length σ))]) id
                (σ ++ [default ∅ (σ !! parameters h);
                       default ∅ (σ !! states h)])).
      rewrite IH, fmap_app. simpl. by rewrite <- app_assoc.
Qed.

Lemma init_content_ids units (weights : list (weight num)) (area : num)
    (id : string) (shared_parameters : bool) σ :
  unit_id <$> _content (__init__ units weights area id shared_parameters σ).1
  = unit_id <$> units.
Proof. simpl. by rewrite init_loop_ids. Qed.

Lemma init_stores_every_unit units (weights : list (weight num))
    (area : num) (id : string) (shared_parameters : bool) σ (i : nat) h :
  units !! i = Some h →
  ∃ u, _content (__init__ units weights area id shared_parameters σ).1 !! i
       = Some u.
Proof.
  intros Hi. apply lookup_lt_is_Some_2.
  pose proof (f_equal length
                (init_content_ids units weights area id shared_parameters σ))
    as Hlen.
  rewrite !length_fmap in Hlen. rewrite Hlen. by eapply lookup_lt_Some.
Qed.

(** What holds of the Units that two Nodes over the same Units store. *)
Lemma stored_units_aliasing units
    (weights1 : list (weight num)) (area1 : num) (id1 : string)
    (weights2 : list (weight num)) (area2 : num) (id2 : string)
    σ (k : string) (v : num) :
  Forall (λ h, parameters h < length σ) units →
  (∀ i h u1 u2,
     units !! i = Some h →
     _content (two_nodes units weights1 area1 id1 weights2 area2 id2
                 true σ).1.1 !! i = Some u1 →
     _content (two_nodes units weights1 area1 id1 weights2 area2 id2
                 true σ).1.2 !! i = Some u2 →
     parameters u1 = parameters h
     ∧ parameters u2 = parameters h
     ∧ get_parameter u2 k
         (set_parameter u1 k v
            (two_nodes units weights1 area1 id1 weights2 area2 id2
               true σ).2)
       = Some v)
  ∧ (∀ i j h u1 u2 k',
       units !! i = Some h →
       _content (two_nodes units weights1 area1 id1 weights2 area2 id2
                   false σ).1.1 !! i = Some u1 →
       _content (two_nodes units weights1 area1 id1 weights2 area2 id2
                   false σ).1.2 !! j = Some u2 →
       get_parameter u2 k'
         (set_parameter u1 k v
            (two_nodes units weights1 area1 id1 weights2 area2 id2
               false σ).2)
       = get_parameter u2 k'
           (two_nodes units weights1 area1 id1 weights2 area2 id2
              false σ).2
       ∧ get_parameter h k'
           (set_parameter u1 k v
              (two_nodes units weights1 area1 id1 weights2 area2 id2
                 false σ).2)
         = get_parameter h k'
             (two_nodes units weights1 area1 id1 weights2 area2 id2
                false σ).2).
Proof.
  intros Hunits. split.
  - intros i h u1 u2 Hh. unfold two_nodes, __init__. simpl.
    rewrite !init_shared. simpl. rewrite Hh.
    intros [= <-] [= <-]. split; [done|]. split; [done|].
    apply get_set_parameter_same; [done|].
    rewrite !length_add_prefix_states.
    by apply (Forall_lookup_1 _ _ _ _ Hunits Hh).
  - intros i j h u1 u2 k' Hh. unfold two_nodes, __init__. simpl.
    destruct (init_deep id1 units [] σ) as (c1 & Hc1 & Hl1 & Hf1).
    destruct (init_deep id2 units []
                (add_prefix_states
                   (foldl (init_body id1 false) ([], σ) units).1 id1
                   (foldl (init_body id1 false) ([], σ) units).2))
      as (c2 & Hc2 & Hl2 & Hf2).
    rewrite length_add_prefix_states, Hl1 in Hf2.
    rewrite Hc2, Hc1. simpl. intros H1 H2.
    pose proof (Forall_lookup_1 _ _ _ _ Hf1 H1) as [Hlo1 Hhi1].
    pose proof (Forall_lookup_1 _ _ _ _ Hf2 H2) as [Hlo2 Hhi2].
    pose proof (Forall_lookup_1 _ _ _ _ Hunits Hh) as Hlt.
    simpl in Hlt.
    split; apply get_set_parameter_other; lia.
Qed.

(** C5: two Nodes constructed over the same Units.  With
    [shared_parameters=True] each Node stores, for every Unit it was given, a
    Unit that refers to the parameters of that Unit, so a parameter written
    through the Unit stored by one Node is read through the matching Unit
    stored by the other.  With [shared_parameters=False] each Node stores
    Units that have parameters of their own: the write is seen neither
    through any Unit stored by the other Node nor through the Units that were
    given. *)
Theorem shared_parameters_aliasing units
    (weights1 : list (weight num)) (area1 : num) (id1 : string)
    (weights2 : list (weight num)) (area2 : num) (id2 : string)
    σ (k : string) (v : num) :
  Forall (λ h, parameters h < length σ) units →
  (∀ i h,
     units !! i = Some h →
     ∃ u1 u2,
       _content (two_nodes units weights1 area1 id1 weights2 area2 id2
                   true σ).1.1 !! i = Some u1
       ∧ _content (two_nodes units weights1 area1 id1 weights2 area2 id2
                     true σ).1.2 !! i = Some u2
       ∧ parameters u1 = parameters h
       ∧ parameters u2 = parameters h
       ∧ get_parameter u2 k
           (set_parameter u1 k v
              (two_nodes units weights1 area1 id1 weights2 area2 id2
                 true σ).2)
         = Some v)
  ∧ (∀ i j h h',
       units !! i = Some h →
       units !! j = Some h' →
       ∃ u1 u2,
         _content (two_nodes units weights1 area1 id1 weights2 area2 id2
                     false σ).1.1 !! i = Some u1
         ∧ _content (two_nodes units weights1 area1 id1 weights2 area2 id2
                       false σ).1.2 !! j = Some u2
         ∧ ∀ k',
             get_parameter u2 k'
               (set_parameter u1 k v
                  (two_nodes units weights1 area1 id1 weights2 area2 id2
                     false σ).2)
             = get_parameter u2 k'
                 (two_nodes units weights1 area1 id1 weights2 area2 id2
                    false σ).2
             ∧ get_parameter h k'
                 (set_parameter u1 k v
                    (two_nodes units weights1 area1 id1 weights2 area2 id2
                       false σ).2)
               = get_parameter h k'
                   (two_nodes units weights1 area1 id1 weights2 area2 id2
                      false σ).2).
Proof.
  intros Hunits.
  destruct (stored_units_aliasing units weights1 area1 id1
              weights2 area2 id2 σ k v Hunits) as [Hshared Hown].
  split.
  - intros i h Hh.
    destruct (init_stores_every_unit units weights1 area1 id1 true σ i h Hh)
      as [u1 Hu1].
    destruct (init_stores_every_unit units weights2 area2 id2 true
                (__init__ units weights1 area1 id1 true σ).2 i h Hh)
      as [u2 Hu2].
    exists u1, u2. split; [exact Hu1|]. split; [exact Hu2|].
    exact (Hshared i h u1 u2 Hh Hu1 Hu2).
  - intros i j h h' Hh Hh'.
    destruct (init_stores_every_unit units weights1 area1 id1 false σ i h Hh)
      as [u1 Hu1].
    destruct (init_stores_every_unit units weights2 area2 id2 false
                (__init__ units weights1 area1 id1 false σ).2 j h' Hh')
      as [u2 Hu2].
    exists u1, u2. split; [exact Hu1|]. split; [exact Hu2|].
    intros k'. exact (Hown i j h u1 u2 k' Hh Hu1 Hu2).
Qed.

(** *** How often a Unit is prefixed *)

#[local] Arguments Nat.mul : simpl never.

Lemma foldl_alter_untouched (loc : Unit num value → nat)
    (f : Unit num value → gmap string num → gmap string num) c σ (l : nat) :
  Forall (λ u, loc u ≠ l) c →
  foldl (λ σ h, alter (f h) (loc h) σ) σ c !! l = σ !! l.
Proof.
  intros Hc. revert σ. induction Hc as [|h c Hh _ IH]; intros σ; simpl.
  - done.
  - rewrite IH. by rewrite list_lookup_alter_ne.
Qed.

Lemma foldl_alter_once (loc : Unit num value → nat)
    (f : Unit num value → gmap string num → gmap string num) c :
  ∀ σ j u,
  c !! j = Some u →
  (∀ j' u', c !! j' = Some u' → j' ≠ j → loc u' ≠ loc u) →
  foldl (λ σ h, alter (f h) (loc h) σ) σ c !! loc u = f u <$> σ !! loc u.
Proof.
  induction c as [|h c IH]; intros σ j u Hj Hother; [done|]. simpl.
  destruct j as [|j]; simpl in Hj.
  - simplify_eq. rewrite foldl_alter_untouched.
    + rewrite list_lookup_alter. by case_decide.
    + apply Forall_lookup_2. intros j' u' Hj'.
      by apply (Hother (S j') u').
  - rewrite (IH _ j u Hj).
    + rewrite list_lookup_alter_ne; [done|]. by apply (Hother 0 h).
    + intros j' u' Hj' Hne. apply (Hother (S j') u'); [done|lia].
Qed.

Lemma deep_invariant_step id σ0 done st h :
  parameters h < length σ0 →
  deep_invariant id σ0 done st →
  deep_invariant id σ0 (done ++ [h]) (init_body id false st h).
Proof.
  intros Hh (Hlc & Hls & Hdone & Hold). destruct st as [c σ].
  cbn [fst snd] in *.
  unfold init_body, deepcopy. simpl.
  rewrite Hls, (Hold _ Hh).
  set (u := with_dicts h (length σ0 + 2 * length done)
                         (S (length σ0 + 2 * length done))).
  set (p := default ∅ (σ0 !! parameters h)).
  set (σ1 := σ ++ [p; default ∅ (σ !! states h)]).
  assert (∀ j u', (c ++ [u]) !! j = Some u' →
                  parameters u' = length σ0 + 2 * j) as Hloc.
  { intros j u' Hj. destruct (decide (j < length c)) as [Hlt|Hge].
    - rewrite lookup_app_l in Hj by done.
      destruct (lookup_lt_is_Some_2 done j) as [hj Hhj]; [lia|].
      destruct (Hdone j hj Hhj) as [Hcj _]. by simplify_eq.
    - rewrite lookup_app_r in Hj by lia.
      destruct (j - length c) as [|n] eqn:Hn; simpl in Hj; [|done].
      simplify_eq. simpl. f_equal. lia. }
  assert (∀ j u', (c ++ [u]) !! j = Some u' →
                  add_prefix_parameters (c ++ [u]) id σ1 !! parameters u'
                  = unit_add_prefix_parameters u' id <$> σ1 !! parameters u')
    as Honce.
  { intros j u' Hj. unfold add_prefix_parameters.
    rewrite (foldl_alter_once parameters
               (λ h, unit_add_prefix_parameters h id) _ _ j u');
      [done|done|].
    intros j' u'' Hj' Hne.
    rewrite (Hloc _ _ Hj), (Hloc _ _ Hj'). lia. }
  split; [|split; [|split]]; simpl.
  - rewrite !length_app. simpl. lia.
  - rewrite length_add_prefix_parameters. unfold σ1.
    rewrite !length_app. simpl. lia.
  - intros j hj Hj. rewrite length_app. simpl.
    destruct (decide (j < length done)) as [Hlt|Hge].
    + rewrite lookup_app_l in Hj by done.
      destruct (Hdone j hj Hj) as [Hcj Hσj]. split.
      * rewrite lookup_app_l by lia. done.
      * assert ((c ++ [u]) !! j = Some
                  (with_dicts hj (length σ0 + 2 * j)
                                 (S (length σ0 + 2 * j)))) as Hcj'.
        { rewrite lookup_app_l by lia. done. }
        pose proof (Honce _ _ Hcj') as Hp. simpl in Hp. rewrite Hp.
        unfold σ1. rewrite lookup_app_l by lia. rewrite Hσj. simpl.
        f_equal.
        replace (length done + 1 - j) with (S (length done - j)) by lia.
        done.
    + rewrite lookup_app_r in Hj by lia.
      destruct (j - length done) as [|n] eqn:Hn; simpl in Hj; [|done].
      simplify_eq. assert (j = length done) as -> by lia. split.
      * rewrite lookup_app_r by lia.
        by replace (length done - length c) with 0 by lia.
      * assert ((c ++ [u]) !! length done = Some u) as Hcu.
        { rewrite lookup_app_r by lia.
          by replace (length done - length c) with 0 by lia. }
        pose proof (Honce _ _ Hcu) as Hp. simpl in Hp. rewrite Hp.
        unfold σ1. rewrite lookup_app_r by lia.
        replace (length σ0 + 2 * length done - length σ) with 0 by lia.
        simpl. f_equal.
        by replace (length done + 1 - length done) with 1 by lia.
  - intros l Hl. unfold add_prefix_parameters.
    rewrite foldl_alter_untouched.
    + unfold σ1. rewrite lookup_app_l by lia. by apply Hold.
    + apply Forall_lookup_2. intros j u' Hj.
      rewrite (Hloc _ _ Hj). lia.
Qed.

Lemma deep_invariant_loop id σ0 (rest : list (Unit num value)) :
  ∀ done st,
  Forall (λ h, parameters h < length σ0) rest →
  deep_invariant id σ0 done st →
  deep_invariant id σ0 (done ++ rest) (foldl (init_body id false) st rest).
Proof.
  induction rest as [|h rest IH]; intros done st Hrest Hinv; simpl.
  - by rewrite app_nil_r.
  - inversion Hrest as [|? ? Hh Hrest']; subst.
    replace (done ++ h :: rest) with ((done ++ [h]) ++ rest)
      by (by rewrite <- app_assoc).
    apply IH; [done|]. by apply deep_invariant_step.
Qed.

(** [__init__] with [shared_parameters=False] calls [add_prefix_parameters]
    of the Node once per Unit, each time on all the Units stored so far. *)
Lemma init_prefix_count units
    (weights : list (weight num)) (area : num) (id : string)
    σ (i : nat) h :
  Forall (λ h, parameters h < length σ) units →
  units !! i = Some h →
  ∃ u,
    _content (__init__ units weights area id false σ).1 !! i = Some u
    ∧ (__init__ units weights area id false σ).2 !! parameters u
      = Some (Nat.iter (length units - i) (unit_add_prefix_parameters h id)
                (default ∅ (σ !! parameters h))).
Proof.
  intros Hunits Hi.
  destruct (deep_invariant_loop id σ units [] ([], σ) Hunits)
    as (Hlc & Hls & Hdone & Hold).
  { split; [done|]. split; [simpl; lia|]. split; [done|done]. }
  simpl in *. destruct (Hdone i h Hi) as [Hci Hσi].
  eexists. split; [exact Hci|]. simpl.
  unfold add_prefix_states. rewrite foldl_alter_untouched; [done|].
  apply Forall_lookup_2. intros j u Hj.
  destruct (lookup_lt_is_Some_2 units j) as [hj Hhj].
  { rewrite <- Hlc. by apply lookup_lt_is_Some_1. }
  destruct (Hdone j hj Hhj) as [Hcj _]. simplify_eq. simpl. lia.
Qed.

Lemma iter_idempotent {A : Type} (f : A → A) (d : A) (n : nat) :
  f (f d) = f d → Nat.iter (S n) f d = f d.
Proof.
  intros Hf. induction n as [|n IH]; [done|].
  change (f (Nat.iter (S n) f d) = f d). by rewrite IH.
Qed.

(** C4, amended: [__init__] with [shared_parameters=False] stores a
    duplicate of every Unit and calls [add_prefix_parameters] of the Node
    once per Unit, each time on all the Units stored so far, so the Unit at
    position [i] of [n] has had [add_prefix_parameters] applied [n - i]
    times, once only for the last Unit; its parameter names carry the prefix
    once when a second application of the Unit's [add_prefix_parameters]
    changes nothing. *)
Theorem init_prefixes_parameters_repeatedly units
    (weights : list (weight num)) (area : num) (id : string)
    σ (i : nat) h :
  Forall (λ h, parameters h < length σ) units →
  units !! i = Some h →
  ∃ u,
    _content (__init__ units weights area id false σ).1 !! i = Some u
    ∧ (__init__ units weights area id false σ).2 !! parameters u
      = Some (Nat.iter (length units - i) (unit_add_prefix_parameters h id)
                (default ∅ (σ !! parameters h)))
    ∧ (unit_add_prefix_parameters h id
         (unit_add_prefix_parameters h id (default ∅ (σ !! parameters h)))
       = unit_add_prefix_parameters h id (default ∅ (σ !! parameters h)) →
       (__init__ units weights area id false σ).2 !! parameters u
       = Some (unit_add_prefix_parameters h id
                 (default ∅ (σ !! parameters h)))).
Proof.
  intros Hunits Hi.
  destruct (init_prefix_count units weights area id σ i h Hunits Hi)
    as (u & Hu & Hσ).
  exists u. split; [exact Hu|]. split; [exact Hσ|].
  intros Honce. rewrite Hσ. f_equal.
  pose proof (lookup_lt_Some _ _ _ Hi) as Hlt.
  replace (length units - i) with (S (length units - S i)) by lia.
  by apply iter_idempotent.
Qed.

End Construction.

(** * The examples *)

Section Examples.
Local Open Scope float_scope.

(** Scalar weights that are not floats: with the int
    weights [1, 1] the Node raises a [TypeError] where the weighted sum
    [[5.0]] is claimed. *)
Lemma weighted_sum_fails_for_int_weights :
  get_output (example_node [WScalar 1; WScalar 1] [2] [3] true) true
  = Raise TypeError
  ∧ ¬ ∃ out,
        get_output (example_node [WScalar 1; WScalar 1] [2] [3] true) true
        = Ok out
        ∧ ∀ k, out !! k = weighted_sum [([2], 1); ([3], 1)] k.
Proof.
  split; [vm_compute; reflexivity|].
  intros (out & Hout & _). vm_compute in Hout. discriminate.
Qed.

(** Units producing [[2.0]] and [[3.0]] with
    weights [[0.25, 0.75]] give [[2.75]]. *)
Lemma weighted_sum_example :
  get_output (example_node [WFloat 0.25; WFloat 0.75] [2] [3] true) true
  = Ok [2.75].
Proof.
  destruct (get_output_weighted_sum
              (example_node [WFloat 0.25; WFloat 0.75] [2] [3] true) true []
              (example_unit "A" 0 1 [2]) [example_unit "B" 2 3 [3]]
              0.25 [WFloat 0.75] [0.75] [2] [[3]])
    as (out & Hout & Hk).
  - reflexivity.
  - reflexivity.
  - reflexivity.
  - repeat constructor.
  - reflexivity.
  - repeat constructor.
  - reflexivity.
  - repeat constructor.
  - rewrite Hout. f_equal. apply list_eq.
    intros [|[|k]]; rewrite Hk; reflexivity.
Defined.

(** Mask weights with a position that is null for both Units. *)
Lemma mask_example :
  get_output
    (example_node [WList [Some 0.5; None; None]; WList [None; None; Some 2]]
       [4] [8] true) true
  = Ok [2; 0; 16].
Proof.
  destruct (get_output_mask
              (example_node
                 [WList [Some 0.5; None; None]; WList [None; None; Some 2]]
                 [4] [8] true) true []
              (example_unit "A" 0 1 [4]) [example_unit "B" 2 3 [8]]
              [Some 0.5; None; None] [[None; None; Some 2]] [4] [[8]])
    as (out & Hout & Hlen & Hsum & Hnull).
  - reflexivity.
  - reflexivity.
  - reflexivity.
  - reflexivity.
  - repeat constructor.
  - reflexivity.
  - vm_compute. lia.
  - constructor; [|constructor]. split; vm_compute; lia.
  - rewrite Hout. f_equal. apply list_eq. intros [|[|[|k]]].
    + rewrite Hsum by (simpl; lia). reflexivity.
    + rewrite Hnull; [reflexivity|simpl; lia|reflexivity|].
      repeat constructor.
    + rewrite Hsum by (simpl; lia). reflexivity.
    + apply lookup_ge_None_2. rewrite Hlen. simpl. lia.
Defined.

(** C3, amended: for a Node with two Units that produce two output fluxes
    each and the weights [[[1.0, None], [None, 1.0]]], [get_output] returns
    [[unitA_out[0] * 1.0, 0 + unitB_out[0] * 1.0]]: Unit B contributes its
    first output at position 1. *)
Theorem mask_two_units (self : Node float string) (solve : bool)
    (inp : list float) (hA hB : Unit float string) (a0 a1 b0 b1 : float) :
  input self = Some inp →
  _content self = [hA; hB] →
  _weights self = [WList [Some 1; None]; WList [None; Some 1]] →
  unit_get_output hA inp solve = Ok [a0; a1] →
  unit_get_output hB inp solve = Ok [b0; b1] →
  get_output self solve = Ok [a0 * 1; 0 + b0 * 1].
Proof.
  intros Hin Hc Hw HA HB. unfold get_output.
  rewrite (set_inputs_ok self inp Hin), Hc, Hw. simpl.
  unfold mask_branch, enumerate. simpl. rewrite HA. simpl.
  rewrite HB. reflexivity.
Qed.

Lemma mask_two_units_example :
  get_output
    (example_node [WList [Some 1; None]; WList [None; Some 1]]
       [1; 2] [3; 4] true) true
  = Ok [1; 3].
Proof.
  rewrite (mask_two_units _ true [] (example_unit "A" 0 1 [1; 2])
             (example_unit "B" 2 3 [3; 4]) 1 2 3 4);
    reflexivity.
Defined.

(** With outputs [[1.0, 2.0]] and [[3.0, 4.0]] the
    result is not [[unitA_out[0], unitB_out[1]] = [1.0, 4.0]]. *)
Lemma mask_two_units_not_second_output :
  get_output
    (example_node [WList [Some 1; None]; WList [None; Some 1]]
       [1; 2] [3; 4] true) true
  ≠ Ok [1; 4].
Proof.
  intros H.
  assert (∀ r, r = Ok [1; 4] →
               match r with
               | Ok [_; x] => PrimFloat.eqb x 4 = true
               | _ => False
               end) as Hsnd.
  { intros r ->. reflexivity. }
  apply Hsnd in H. vm_compute in H. discriminate.
Qed.

(** Two Units that count the calls of their [add_prefix_parameters]: after
    [__init__] without shared parameters the first stored Unit has counted
    two calls, not one, and the second one call. *)
Lemma init_calls_first_unit_twice :
  _content
    (__init__ [counting_unit "A" 0 1; counting_unit "B" 2 3]
       [WFloat 0.5; WFloat 0.5] 1 "n1" false example_store).1
  = [with_dicts (counting_unit "A" 0 1) 4 5;
     with_dicts (counting_unit "B" 2 3) 6 7]
  ∧ get_parameter (with_dicts (counting_unit "A" 0 1) 4 5) "calls"
      (__init__ [counting_unit "A" 0 1; counting_unit "B" 2 3]
         [WFloat 0.5; WFloat 0.5] 1 "n1" false example_store).2
    = Some 2
  ∧ get_parameter (with_dicts (counting_unit "A" 0 1) 4 5) "calls"
      (__init__ [counting_unit "A" 0 1; counting_unit "B" 2 3]
         [WFloat 0.5; WFloat 0.5] 1 "n1" false example_store).2
    ≠ Some 1
  ∧ get_parameter (with_dicts (counting_unit "B" 2 3) 6 7) "calls"
      (__init__ [counting_unit "A" 0 1; counting_unit "B" 2 3]
         [WFloat 0.5; WFloat 0.5] 1 "n1" false example_store).2
    = Some 1.
Proof.
  assert (get_parameter (with_dicts (counting_unit "A" 0 1) 4 5) "calls"
            (__init__ [counting_unit "A" 0 1; counting_unit "B" 2 3]
               [WFloat 0.5; WFloat 0.5] 1 "n1" false example_store).2
          = Some 2) as Htwo.
  { vm_compute. reflexivity. }
  split; [reflexivity|]. split; [exact Htwo|]. split.
  - rewrite Htwo. intros Hone.
    apply (f_equal (λ o, match o with
                         | Some x => PrimFloat.eqb x 2
                         | None => false
                         end)) in Hone.
    vm_compute in Hone. discriminate.
  - vm_compute. reflexivity.
Qed.

(** On the two example Units, whose [add_prefix_parameters] leaves a
    prefixed name alone, the parameter [k] of the first Unit is under the
    name [n1_k] and under no name with two prefixes. *)
Lemma init_prefixes_first_unit_once :
  get_parameter (with_dicts (example_unit "A" 0 1 []) 4 5) "n1_k"
    (__init__ (example_units [] []) [WFloat 0.5; WFloat 0.5] 1 "n1" false
       example_store).2
  = Some 1.5
  ∧ get_parameter (with_dicts (example_unit "A" 0 1 []) 4 5) "n1_n1_k"
      (__init__ (example_units [] []) [WFloat 0.5; WFloat 0.5] 1 "n1" false
         example_store).2
    = None.
Proof.
  destruct (init_prefixes_parameters_repeatedly
              (example_units [] []) [WFloat 0.5; WFloat 0.5] 1 "n1"
              example_store 0 (example_unit "A" 0 1 []))
    as (u & Hu & _ & Honce).
  - repeat constructor; simpl; lia.
  - reflexivity.
  - assert (Some u = Some (with_dicts (example_unit "A" 0 1 []) 4 5)) as Heq.
    { rewrite <- Hu. reflexivity. }
    injection Heq as ->.
    unfold get_parameter. rewrite Honce by (vm_compute; reflexivity).
    split; vm_compute; reflexivity.
Defined.

(** Two Nodes over the example Units: with shared parameters the value
    written through the Unit the first Node stores is read through the Unit
    the second Node stores; without, the Unit of the second Node still reads
    [1.5]. *)
Lemma shared_parameters_example :
  (∃ u1 u2,
     _content (two_nodes (example_units [] []) [] 1 "n1" [] 1 "n2" true
                 example_store).1.1 !! 0%nat = Some u1
     ∧ _content (two_nodes (example_units [] []) [] 1 "n1" [] 1 "n2" true
                   example_store).1.2 !! 0%nat = Some u2
     ∧ get_parameter u2 "k"
         (set_parameter u1 "k" 9.5
            (two_nodes (example_units [] []) [] 1 "n1" [] 1 "n2" true
               example_store).2)
       = Some 9.5)
  ∧ (∃ u1 u2,
       _content (two_nodes (example_units [] []) [] 1 "n1" [] 1 "n2" false
                   example_store).1.1 !! 0%nat = Some u1
       ∧ _content (two_nodes (example_units [] []) [] 1 "n1" [] 1 "n2" false
                     example_store).1.2 !! 0%nat = Some u2
       ∧ get_parameter u2 "n2_k"
           (set_parameter u1 "n2_k" 9.5
              (two_nodes (example_units [] []) [] 1 "n1" [] 1 "n2" false
                 example_store).2)
         = Some 1.5).
Proof.
  destruct (shared_parameters_aliasing (example_units [] [])
              [] 1 "n1" [] 1 "n2" example_store "k" 9.5)
    as [Hshared _].
  { repeat constructor; simpl; lia. }
  destruct (shared_parameters_aliasing (example_units [] [])
              [] 1 "n1" [] 1 "n2" example_store "n2_k" 9.5)
    as [_ Hown].
  { repeat constructor; simpl; lia. }
  split.
  - destruct (Hshared 0%nat (example_unit "A" 0 1 []))
      as (u1 & u2 & Hu1 & Hu2 & _ & _ & Hread); [reflexivity|].
    by exists u1, u2.
  - destruct (Hown 0%nat 0%nat (example_unit "A" 0 1 [])
                (example_unit "A" 0 1 []))
      as (u1 & u2 & Hu1 & Hu2 & Hread); [reflexivity|reflexivity|].
    exists u1, u2. split; [exact Hu1|]. split; [exact Hu2|].
    destruct (Hread "n2_k") as [-> _].
    assert (Some u2 = Some (with_dicts (example_unit "A" 0 1 []) 8 9))
      as Heq.
    { rewrite <- Hu2. reflexivity. }
    injection Heq as ->. vm_compute. reflexivity.
Defined.

(** On the example Node a three-segment id goes to the Unit's own
    [get_internal] and [call_internal], a one-segment id to the Unit's
    members. *)
Lemma internal_example :
  get_internal find_content_by_first_segment
    (example_node [] [] [] true) "B_e1_p" "value"
  = Ok (Data "B_e1_p.value")
  ∧ call_internal find_content_by_first_segment
      (example_node [] [] [] true) "B_e1_p" "reset" []
    = Ok (Data "B_e1_p.reset()")
  ∧ get_internal find_content_by_first_segment
      (example_node [] [] [] true) "B" "id"
    = Ok (Data "B")
  ∧ call_internal find_content_by_first_segment
      (example_node [] [] [] true) "B" "get_parameters_name" []
    = Ok (Data "[]").
Proof.
  destruct (internal_delegates_or_resolves find_content_by_first_segment
              (example_node [] [] [] true) "B_e1_p" "value" []
              1 (example_unit "B" 2 3 []))
    as [Hget _]; [vm_compute; reflexivity|reflexivity|].
  destruct (internal_delegates_or_resolves find_content_by_first_segment
              (example_node [] [] [] true) "B_e1_p" "reset" []
              1 (example_unit "B" 2 3 []))
    as [Hcall _]; [vm_compute; reflexivity|reflexivity|].
  destruct (internal_delegates_or_resolves find_content_by_first_segment
              (example_node [] [] [] true) "B" "id" []
              1 (example_unit "B" 2 3 []))
    as [_ Hattr]; [vm_compute; reflexivity|reflexivity|].
  destruct (internal_delegates_or_resolves find_content_by_first_segment
              (example_node [] [] [] true) "B" "get_parameters_name" []
              1 (example_unit "B" 2 3 []))
    as [_ Hmeth]; [vm_compute; reflexivity|reflexivity|].
  split; [|split; [|split]].
  - apply Hget. reflexivity.
  - apply Hcall. reflexivity.
  - apply Hattr; [vm_compute; lia|reflexivity].
  - etrans.
    + eapply Hmeth; [vm_compute; lia|reflexivity|discriminate].
    + reflexivity.
Defined.

(** C7, at the failing input: the method [reset_states] exists on Unit A
    and raises an [AttributeError] of its own while it runs; [call_internal]
    then raises the unknown-member error, saying that the method does not
    exist, so the error is not raised exactly when the member is absent. *)
Lemma unknown_member_error_for_existing_method :
  unit_getattr (example_unit "A" 0 1 []) "reset_states" ≠ None
  ∧ call_internal find_content_by_first_segment
      (example_node [] [] [] true) "A" "reset_states" []
    = Raise (AttributeError
               ("module : superflexPy, Node : n1, Error message : "
                +:+ "the method <bound method Unit.reset_states>"
                +:+ " does not exist."))
  ∧ ¬ ((∃ msg, call_internal find_content_by_first_segment
                 (example_node [] [] [] true) "A" "reset_states" []
               = Raise (AttributeError msg))
       ↔ unit_getattr (example_unit "A" 0 1 []) "reset_states" = None).
Proof.
  split; [vm_compute; discriminate|]. split; [vm_compute; reflexivity|].
  intros [Honly _].
  assert (unit_getattr (example_unit "A" 0 1 []) "reset_states" = None)
    as Habsent.
  { apply Honly. eexists. vm_compute. reflexivity. }
  vm_compute in Habsent. discriminate.
Qed.

(** On the example Node, an attribute and a method that Unit A does not
    have. *)
Lemma unknown_member_example :
  get_internal find_content_by_first_segment
    (example_node [] [] [] true) "A" "area"
  = Raise (AttributeError
             ("module : superflexPy, Node : n1, Error message : "
              +:+ "the attribute area does not exist."))
  ∧ call_internal find_content_by_first_segment
      (example_node [] [] [] true) "A" "area" []
    = Raise (AttributeError
               ("module : superflexPy, Node : n1, Error message : "
                +:+ "the method area does not exist.")).
Proof.
  destruct (unknown_member_error find_content_by_first_segment
              (example_node [] [] [] true) "A" "area" []
              0 (example_unit "A" 0 1 []))
    as (_ & _ & Habsent & _).
  - vm_compute. reflexivity.
  - reflexivity.
  - vm_compute. lia.
  - apply Habsent. reflexivity.
Defined.

(** The example Node with the int [1] as first weight. *)
Lemma int_first_weight_example :
  get_output (example_node [WScalar 1; WFloat 0.75] [2] [3] true) true
  = Raise TypeError.
Proof.
  destruct (get_output_branch_choice
              (example_node [WScalar 1; WFloat 0.75] [2] [3] true) true
              (WScalar 1) [WFloat 0.75]
              [(example_unit "A" 0 1 [2], []); (example_unit "B" 2 3 [3], [])])
    as (_ & _ & _ & Hint); [reflexivity|reflexivity|].
  apply (Hint 1 (example_unit "A" 0 1 [2]) []
           [(example_unit "B" 2 3 [3], [])] [2]);
    reflexivity.
Defined.

(** On the example Node [reset_states] of Unit A raises an
    [AttributeError] of its own. *)
Lemma method_error_example :
  call_internal find_content_by_first_segment
    (example_node [] [] [] true) "A" "reset_states" []
  = Raise (AttributeError
             ("module : superflexPy, Node : n1, Error message : "
              +:+ "the method <bound method Unit.reset_states>"
              +:+ " does not exist.")).
Proof.
  destruct (call_internal_masks_method_error find_content_by_first_segment
              (example_node [] [] [] true) "A" "reset_states" []
              0 (example_unit "A" 0 1 [])
              "<bound method Unit.reset_states>"
              (λ _, Raise (AttributeError
                             "'Unit' object has no attribute '_layers'"))
              "'Unit' object has no attribute '_layers'")
    as [Hraise _].
  - vm_compute. reflexivity.
  - reflexivity.
  - vm_compute. lia.
  - reflexivity.
  - reflexivity.
  - exact Hraise.
Defined.

End Examples.

(** * Further properties of the code *)

Section Segments.

Lemma split_not_empty (sep : Ascii.ascii) (s : string) : split sep s ≠ [].
Proof. destruct s as [|c s]; simpl; [done|]. by repeat case_match. Qed.

(** [s.split(sep)] has one segment more than [s] has separators. *)
Lemma length_split (sep : Ascii.ascii) (s : string) :
  length (split sep s) = S (count_char sep s).
Proof.
  induction s as [|c s IH]; simpl; [done|].
  destruct (Ascii.eqb c sep); simpl; [by rewrite IH|].
  destruct (split sep s) as [|x xs] eqn:Hs;
    [by destruct (split_not_empty sep s)|].
  simpl in *. lia.
Qed.

End Segments.

Section LoopFacts.
Context {A S : Type}.

(** What holds of the state before a loop and is kept by every iteration
    that returns holds after a loop that returns. *)
Lemma for_each_keeps (P : S → Prop) (xs : list A) (body : A → S → result S)
    (s s' : S) :
  (∀ x s s', body x s = Ok s' → P s → P s') →
  P s → for_each xs body s = Ok s' → P s'.
Proof.
  intros Hbody. revert s. induction xs as [|x xs IH]; intros s Hs; simpl.
  - by intros [= <-].
  - destruct (body x s) as [s1|e] eqn:Hx; simpl; [|done].
    apply IH. by apply (Hbody x s).
Qed.

(** A loop whose first part raises, raises. *)
Lemma for_each_app_raise (xs ys : list A) (body : A → S → result S)
    (s : S) (e : exception) :
  for_each xs body s = Raise e → for_each (xs ++ ys) body s = Raise e.
Proof. intros Hxs. by rewrite for_each_app, Hxs. Qed.

End LoopFacts.

Section Lists.
Context {A B : Type}.

Lemma zip_app_l (l1 l2 : list A) (k : list B) :
  zip (l1 ++ l2) k = zip l1 k ++ zip l2 (drop (length l1) k).
Proof.
  revert k. induction l1 as [|x l1 IH]; intros k; simpl.
  - by rewrite drop_0.
  - destruct k as [|y k]; simpl.
    + by destruct l2.
    + by rewrite IH.
Qed.

Lemma zip_take (l : list A) (k : list B) :
  zip (take (length k) l) (take (length l) k) = zip l k.
Proof.
  revert k. induction l as [|x l IH]; intros k; simpl.
  - by destruct k.
  - destruct k as [|y k]; simpl; [done|]. by rewrite IH.
Qed.

Lemma enumerate_from_app (a : nat) (l1 l2 : list A) :
  zip (seq a (length (l1 ++ l2))) (l1 ++ l2)
  = zip (seq a (length l1)) l1
    ++ zip (seq (a + length l1) (length l2)) l2.
Proof.
  revert a. induction l1 as [|x l1 IH]; intros a; simpl.
  - by rewrite Nat.add_0_r.
  - rewrite IH. by replace (S a + length l1) with (a + S (length l1)) by lia.
Qed.

End Lists.

Section ConstructionFacts.
Context {num : Type} `{!Arith num} {value : Type}.
Implicit Types (h u : Unit num value) (c units : list (Unit num value)).
Implicit Types (σ : list (gmap string num)).

#[local] Arguments Nat.mul : simpl never.

Lemma content_pointer_snoc c h :
  content_pointer (c ++ [h])
  = <[unit_id h := length c]> (content_pointer c).
Proof.
  unfold content_pointer.
  rewrite (enumerate_from_app 0 c [h]), foldl_app. done.
Qed.

(** The dictionary comprehension keeps, for each id, the position of the
    last Unit that has it. *)
Lemma content_pointer_lookup c (k : string) (i : nat) :
  content_pointer c !! k = Some i
  ↔ (∃ h, c !! i = Some h ∧ unit_id h = k)
    ∧ (∀ j h', i < j → c !! j = Some h' → unit_id h' ≠ k).
Proof.
  revert i. induction c as [|h c IH] using rev_ind; intros i.
  - split; [done|]. by intros [(h & Hh & _) _].
  - rewrite content_pointer_snoc.
    destruct (decide (unit_id h = k)) as [Hk|Hk].
    + rewrite Hk, lookup_insert_eq. split.
      * intros [= <-]. split.
        -- exists h. split; [|done].
           rewrite lookup_app_r by lia.
           by replace (length c - length c) with 0 by lia.
        -- intros j h' Hj Hh'. apply lookup_lt_Some in Hh'.
           rewrite length_app in Hh'. simpl in Hh'. lia.
      * intros [(h0 & Hh0 & Hid) Hlast]. f_equal.
        destruct (decide (i = length c)) as [|Hne]; [done|].
        pose proof (lookup_lt_Some _ _ _ Hh0) as Hlt.
        rewrite length_app in Hlt. simpl in Hlt.
        destruct (Hlast (length c) h); [lia| |done].
        rewrite lookup_app_r by lia.
        by replace (length c - length c) with 0 by lia.
    + rewrite lookup_insert_ne by done. rewrite IH. split.
      * intros [(h0 & Hh0 & Hid) Hlast]. split.
        -- exists h0. split; [|done].
           rewrite lookup_app_l; [done|]. by eapply lookup_lt_Some.
        -- intros j h' Hj Hh'.
           destruct (decide (j < length c)) as [Hlt|Hge].
           ++ rewrite lookup_app_l in Hh' by done. by eapply Hlast.
           ++ rewrite lookup_app_r in Hh' by lia.
              destruct (j - length c); simpl in Hh'; [|done]. by simplify_eq.
      * intros [(h0 & Hh0 & Hid) Hlast].
        assert (i < length c) as Hlt.
        { destruct (decide (i < length c)) as [|Hge]; [done|].
          rewrite lookup_app_r in Hh0 by lia.
          destruct (i - length c); simpl in Hh0; [|done]. by simplify_eq. }
        rewrite lookup_app_l in Hh0 by done. split.
        -- by exists h0.
        -- intros j h' Hj Hh'. apply (Hlast j h' Hj).
           rewrite lookup_app_l; [done|]. by eapply lookup_lt_Some.
Qed.

(** X1: [_content_pointer] after [__init__], with or without shared
    parameters: an id is mapped to the position of the last Unit given under
    that id, and to nothing when no Unit has it. *)
Theorem init_content_pointer units (weights : list (weight num))
    (area : num) (id : string) (shared_parameters : bool) σ
    (k : string) (i : nat) :
  _content_pointer (__init__ units weights area id shared_parameters σ).1
    !! k = Some i
  ↔ (∃ h, units !! i = Some h ∧ unit_id h = k)
    ∧ (∀ j h', i < j → units !! j = Some h' → unit_id h' ≠ k).
Proof.
  pose proof (init_content_ids units weights area id shared_parameters σ)
    as Hids.
  change (_content_pointer
            (__init__ units weights area id shared_parameters σ).1)
    with (content_pointer
            (_content (__init__ units weights area id shared_parameters σ).1)).
  set (c := _content (__init__ units weights area id shared_parameters σ).1)
    in *.
  assert (∀ j s, (∃ h, c !! j = Some h ∧ unit_id h = s)
                 ↔ (∃ h, units !! j = Some h ∧ unit_id h = s)) as Hsame.
  { intros j s.
    assert ((unit_id <$> c) !! j = (unit_id <$> units) !! j) as Hj
      by (by rewrite Hids).
    rewrite !list_lookup_fmap in Hj. split; intros (h & Hh & Hs).
    - rewrite Hh in Hj. simpl in Hj.
      destruct (units !! j) as [h'|]; [|done]. simpl in Hj.
      exists h'. split; [done|]. congruence.
    - rewrite Hh in Hj. simpl in Hj.
      destruct (c !! j) as [h'|]; [|done]. simpl in Hj.
      exists h'. split; [done|]. congruence. }
  rewrite content_pointer_lookup, Hsame. apply and_iff_compat_l. split.
  - intros Hlast j h' Hj Hh' Hid.
    destruct (proj2 (Hsame j k)) as (h0 & Hh0 & Hid0); [by exists h'|].
    by apply (Hlast j h0).
  - intros Hlast j h' Hj Hh' Hid.
    destruct (proj1 (Hsame j k)) as (h0 & Hh0 & Hid0); [by exists h'|].
    by apply (Hlast j h0).
Qed.

(** X2: [add_prefix_parameters] and [add_prefix_states] of the Node change
    the store at the dictionaries of its Units and nowhere else: a
    dictionary is renamed once for each Unit that refers to it, in the order
    of the Units, and the store keeps its size. *)
Theorem add_prefix_lookup c (id : string) σ (l : nat) :
  add_prefix_parameters c id σ !! l
  = (λ d, foldl (λ d h, unit_add_prefix_parameters h id d) d
            (filter (λ h, parameters h = l) c)) <$> σ !! l
  ∧ add_prefix_states c id σ !! l
    = (λ d, foldl (λ d h, unit_add_prefix_states h id d) d
              (filter (λ h, states h = l) c)) <$> σ !! l
  ∧ length (add_prefix_parameters c id σ) = length σ
  ∧ length (add_prefix_states c id σ) = length σ.
Proof.
  assert (∀ (loc : Unit num value → nat)
            (f : Unit num value → gmap string num → gmap string num) σ,
            foldl (λ σ h, alter (f h) (loc h) σ) σ c !! l
            = (λ d, foldl (λ d h, f h d) d (filter (λ h, loc h = l) c))
              <$> σ !! l) as Hfold.
  { intros loc f. induction c as [|h c IH]; intros σ'; simpl.
    - by destruct (σ' !! l).
    - rewrite IH, list_lookup_alter.
      destruct (decide (loc h = l)) as [Hl|Hl].
      + rewrite filter_cons_True by done. simpl. rewrite Hl.
        by destruct (σ' !! l).
      + rewrite filter_cons_False by done. done. }
  split; [apply (Hfold parameters (λ h, unit_add_prefix_parameters h id))|].
  split; [apply (Hfold states (λ h, unit_add_prefix_states h id))|].
  split; [apply length_add_prefix_parameters|apply length_add_prefix_states].
Qed.

(** The state dictionaries of the duplicates are not touched by the loop
    of [__init__]. *)
Lemma deep_states_step id σ0 (done : list (Unit num value))
    (st : list (Unit num value) * list (gmap string num)) h :
  states h < length σ0 →
  deep_invariant id σ0 done st →
  (∀ j hj, done !! j = Some hj →
           st.2 !! S (length σ0 + 2 * j)
           = Some (default ∅ (σ0 !! states hj))) →
  ∀ j hj, (done ++ [h]) !! j = Some hj →
          (init_body id false st h).2 !! S (length σ0 + 2 * j)
          = Some (default ∅ (σ0 !! states hj)).
Proof.
  intros Hh (Hlc & Hls & Hdone & Hold) Hstates j hj Hj.
  destruct st as [c σ]. cbn [fst snd] in *.
  unfold init_body, deepcopy. cbn [fst snd].
  unfold add_prefix_parameters. rewrite foldl_alter_untouched.
  - destruct (decide (j < length done)) as [Hlt|Hge].
    + rewrite lookup_app_l in Hj by done.
      rewrite lookup_app_l by lia. by apply Hstates.
    + rewrite lookup_app_r in Hj by lia.
      destruct (j - length done) as [|n] eqn:Hn; simpl in Hj; [|done].
      simplify_eq. assert (j = length done) as -> by lia.
      rewrite lookup_app_r by lia.
      replace (S (length σ0 + 2 * length done) - length σ) with 1 by lia.
      simpl. by rewrite (Hold _ Hh).
  - apply Forall_lookup_2. intros j' u' Hj'.
    destruct (decide (j' < length c)) as [Hlt|Hge].
    + rewrite lookup_app_l in Hj' by done.
      destruct (lookup_lt_is_Some_2 done j') as [hj' Hhj']; [lia|].
      destruct (Hdone j' hj' Hhj') as [Hcj _]. simplify_eq. simpl. lia.
    + rewrite lookup_app_r in Hj' by lia.
      destruct (j' - length c) as [|n] eqn:Hn; simpl in Hj'; [|done].
      simplify_eq. simpl. lia.
Qed.

Lemma deep_states_loop id σ0 (rest : list (Unit num value)) :
  ∀ (done : list (Unit num value))
    (st : list (Unit num value) * list (gmap string num)),
  Forall (λ h, parameters h < length σ0 ∧ states h < length σ0) rest →
  deep_invariant id σ0 done st →
  (∀ j hj, done !! j = Some hj →
           st.2 !! S (length σ0 + 2 * j)
           = Some (default ∅ (σ0 !! states hj))) →
  ∀ j hj, (done ++ rest) !! j = Some hj →
          (foldl (init_body id false) st rest).2 !! S (length σ0 + 2 * j)
          = Some (default ∅ (σ0 !! states hj)).
Proof.
  induction rest as [|h rest IH]; intros done st Hrest Hinv Hstates; simpl.
  - by rewrite app_nil_r.
  - inversion Hrest as [|? ? [Hp Hs] Hrest']; subst.
    replace (done ++ h :: rest) with ((done ++ [h]) ++ rest)
      by (by rewrite <- app_assoc).
    apply IH; [done| |].
    + by apply deep_invariant_step.
    + by apply deep_states_step.
Qed.

(** X3: [__init__] with [shared_parameters=False] prefixes the states of
    every stored Unit exactly once, whatever its position: the state
    dictionary of the duplicate is that of the Unit given, renamed once by
    the Unit's [add_prefix_states]. *)
Theorem init_prefixes_states_once units
    (weights : list (weight num)) (area : num) (id : string)
    σ (i : nat) h :
  Forall (λ h, parameters h < length σ ∧ states h < length σ) units →
  units !! i = Some h →
  ∃ u,
    _content (__init__ units weights area id false σ).1 !! i = Some u
    ∧ (__init__ units weights area id false σ).2 !! states u
      = Some (unit_add_prefix_states h id (default ∅ (σ !! states h))).
Proof.
  intros Hunits Hi.
  assert (Forall (λ h, parameters h < length σ) units) as Hparams.
  { eapply Forall_impl; [exact Hunits|]. by intros ? [? ?]. }
  assert (deep_invariant id σ (@nil (Unit num value)) ([], σ)) as Hinit.
  { split; [done|]. split; [simpl; lia|]. split; [done|done]. }
  pose proof (deep_invariant_loop id σ units [] ([], σ) Hparams Hinit)
    as (Hlc & Hls & Hdone & Hold).
  pose proof (deep_states_loop id σ units [] ([], σ) Hunits Hinit) as Hstates.
  cbn [app fst snd] in *.
  destruct (Hdone i h Hi) as [Hci _].
  eexists. split; [exact Hci|]. unfold __init__. cbn [snd fst].
  unfold add_prefix_states.
  rewrite (foldl_alter_once states (λ h, unit_add_prefix_states h id)
             _ _ i _ Hci).
  - cbn [states with_dicts]. rewrite (Hstates ltac:(done) i h Hi). done.
  - intros j' u' Hj' Hne.
    destruct (lookup_lt_is_Some_2 units j') as [hj Hhj].
    { rewrite <- Hlc. by eapply lookup_lt_Some. }
    destruct (Hdone j' hj Hhj) as [Hcj _]. simplify_eq. simpl. lia.
Qed.

End ConstructionFacts.

Section OutputFacts.
Context {num : Type} `{!Arith num} {value : Type}.
Implicit Types (self : Node num value) (h : Unit num value).
Implicit Types (out loc_out inp : list num) (e : exception).

Lemma get_output_with_input self solve inp :
  input self = Some inp →
  get_output self solve
  = (w0 ← index (_weights self) 0;
     output ←
       (if isinstance_float w0 then
          uniform_branch solve ((λ h, (h, inp)) <$> _content self)
            (_weights self)
        else
          mask_branch solve ((λ h, (h, inp)) <$> _content self)
            (_weights self));
     return_routed self output).
Proof. intros Hin. unfold get_output. by rewrite (set_inputs_ok _ inp). Qed.

Lemma branch_loop (b : bool) solve
    (c : list (Unit num value * list num)) (W : list (weight num)) :
  (if b then uniform_branch solve c W else mask_branch solve c W)
  = for_each (enumerate (zip c W))
      (if b then uniform_body solve else mask_body solve) None.
Proof. by destruct b. Qed.

Lemma body_raise (b : bool) solve (i : nat) h inp (w : weight num)
    (st : option (list num)) e :
  unit_get_output h inp solve = Raise e →
  (if b then uniform_body solve else mask_body solve) (i, ((h, inp), w)) st
  = Raise e.
Proof. intros He. destruct b; simpl; by rewrite He. Qed.

(** An iteration that returns leaves [output] bound, when it is the first
    or [output] was bound before. *)
Lemma body_some (b : bool) solve
    (x : nat * ((Unit num value * list num) * weight num))
    (st st' : option (list num)) :
  (if b then uniform_body solve else mask_body solve) x st = Ok st' →
  x.1 = 0 ∨ is_Some st →
  is_Some st'.
Proof.
  destruct x as (i & (h & inp) & w). simpl.
  destruct b; simpl.
  - destruct (unit_get_output h inp solve) as [loc_out|]; simpl; [|done].
    case_decide.
    + destruct (scale loc_out w); simpl; [|done]. intros [= <-] _. eauto.
    + destruct st as [out|]; simpl; [|done].
      match goal with |- context [for_each ?xs ?f ?s] =>
        destruct (for_each xs f s) end; simpl; [|done].
      intros [= <-] _. eauto.
  - destruct (unit_get_output h inp solve) as [loc_out|]; simpl; [|done].
    case_decide.
    + destruct (len w); simpl; [|done].
      match goal with |- context [for_each ?xs ?f ?s] =>
        destruct (for_each xs f s) end; simpl; [|done].
      intros [= <-] _. eauto.
    + destruct (len w) as [n|]; simpl; [|done].
      match goal with |- context [for_each ?xs ?f ?s] =>
        destruct (for_each xs f s) as [s1|] eqn:Hloop end; simpl; [|done].
      intros [= <-] [?|Hst]; [done|].
      eapply (for_each_keeps (λ s : option (list num) * nat, is_Some s.1)
                _ _ (st, 0) s1);
        [|exact Hst|exact Hloop].
      intros j s s' Hbody Hs. simpl in Hbody.
      destruct (getitem w j) as [[wj|]|]; simpl in Hbody; [| |done].
      * destruct (bound s.1) as [out|]; simpl in Hbody; [|done].
        destruct (index out j); simpl in Hbody; [|done].
        destruct (index loc_out s.2); simpl in Hbody; [|done].
        simplify_eq. simpl. eauto.
      * by simplify_eq.
Qed.

Lemma loop_some (b : bool) solve
    (xs : list ((Unit num value * list num) * weight num))
    (st : option (list num)) :
  xs ≠ [] →
  for_each (enumerate xs)
    (if b then uniform_body solve else mask_body solve) None = Ok st →
  is_Some st.
Proof.
  destruct xs as [|x xs]; [done|]. intros _. unfold enumerate. simpl.
  destruct ((if b then uniform_body solve else mask_body solve) (0, x) None)
    as [s1|] eqn:Hfirst; simpl; [|done].
  apply for_each_keeps.
  - intros y s s' Hy Hs. apply (body_some b solve y s s' Hy). by right.
  - apply (body_some b solve (0, x) None s1 Hfirst). by left.
Qed.

(** X4: [get_output] on a Node as [__init__] leaves it, before any
    [set_input]: with at least one Unit the read of [self.input] raises an
    [AttributeError]. *)
Theorem get_output_before_set_input (units : list (Unit num value))
    (weights : list (weight num)) (area : num) (id : string)
    (shared_parameters : bool) (σ : list (gmap string num)) solve :
  units ≠ [] →
  get_output (__init__ units weights area id shared_parameters σ).1 solve
  = Raise (AttributeError "'Node' object has no attribute 'input'").
Proof.
  intros Hunits. unfold get_output, set_inputs.
  pose proof (init_content_ids units weights area id shared_parameters σ)
    as Hids.
  destruct (_content (__init__ units weights area id shared_parameters σ).1)
    as [|h c] eqn:Hc.
  - destruct units; [done|]. done.
  - done.
Qed.

(** X5: a Node without weights raises an [IndexError] at
    [self._weights[0]], and a Node with weights but without Units an
    [UnboundLocalError] at [return], since no iteration binds [output]. *)
Theorem get_output_without_units_or_weights self solve :
  (_weights self = [] →
   is_Some (input self) ∨ _content self = [] →
   get_output self solve = Raise IndexError)
  ∧ (_content self = [] →
     _weights self ≠ [] →
     get_output self solve = Raise UnboundLocalError).
Proof.
  split.
  - intros Hw [[inp Hin]|Hc].
    + by rewrite (get_output_with_input _ _ _ Hin), Hw.
    + unfold get_output, set_inputs. by rewrite Hc, Hw.
  - intros Hc Hw. unfold get_output, set_inputs. rewrite Hc. simpl.
    destruct (_weights self) as [|w0 ws]; [done|]. simpl.
    unfold uniform_branch, mask_branch. by destruct (isinstance_float w0).
Qed.

(** The output is a function of the first weight and of the pairs of Units
    and weights. *)
Lemma get_output_same_pairs self self' solve inp :
  input self = Some inp →
  input self' = Some inp →
  _weights self !! 0 = _weights self' !! 0 →
  zip ((λ h, (h, inp)) <$> _content self) (_weights self)
  = zip ((λ h, (h, inp)) <$> _content self') (_weights self') →
  get_output self solve = get_output self' solve.
Proof.
  intros Hin Hin' Hw0 Hzip.
  rewrite (get_output_with_input _ _ _ Hin).
  rewrite (get_output_with_input _ _ _ Hin'). unfold index. rewrite Hw0.
  destruct (_weights self' !! 0) as [w0|]; [|done]. simpl.
  rewrite !(branch_loop (isinstance_float w0)). by rewrite Hzip.
Qed.

(** X6: on a Node with its input set and at least one Unit, [zip] stops at
    the shorter of [self._content] and [self._weights]: Units without a
    weight and weights without a Unit play no part in the output.  (Without
    any Unit the weights still decide which exception is raised.) *)
Theorem get_output_ignores_surplus self self' solve inp :
  input self = Some inp →
  input self' = Some inp →
  _content self ≠ [] →
  _content self' = take (length (_weights self)) (_content self) →
  _weights self' = take (length (_content self)) (_weights self) →
  get_output self' solve = get_output self solve.
Proof.
  intros Hin Hin' Hne Hc Hw.
  apply (get_output_same_pairs _ _ _ inp Hin' Hin); rewrite ?Hc, ?Hw.
  - destruct (_content self); [done|]. by destruct (_weights self).
  - rewrite fmap_take.
    rewrite <- (length_fmap (λ h, (h, inp)) (_content self)).
    apply zip_take.
Qed.

(** X7: an exception raised while the first Units are combined is the
    exception of the whole call: if [get_output] raises [e] on a Node with
    some first Units of [self] (at least one), it raises [e] on [self]. *)
Theorem get_output_raises_with_prefix self self' solve inp
    (rest : list (Unit num value)) e :
  input self = Some inp →
  input self' = Some inp →
  _weights self' = _weights self →
  _content self' ≠ [] →
  _content self = _content self' ++ rest →
  get_output self' solve = Raise e →
  get_output self solve = Raise e.
Proof.
  intros Hin Hin' Hw Hne Hc.
  rewrite (get_output_with_input _ _ _ Hin).
  rewrite (get_output_with_input _ _ _ Hin'), Hw, Hc.
  destruct (_weights self) as [|w0 ws]; [done|]. cbn [index lookup].
  simpl. rewrite !(branch_loop (isinstance_float w0)).
  rewrite fmap_app, zip_app_l. unfold enumerate at 2.
  rewrite enumerate_from_app.
  destruct (for_each
              (enumerate (zip ((λ h, (h, inp)) <$> _content self') (w0 :: ws)))
              (if isinstance_float w0 then uniform_body solve
               else mask_body solve) None) as [st|e'] eqn:Hloop.
  - assert (zip ((λ h, (h, inp)) <$> _content self') (w0 :: ws) ≠ [])
      as Hpairs by (by destruct (_content self')).
    by destruct (loop_some _ _ _ _ Hpairs Hloop) as [out ->].
  - simpl. intros [= ->]. unfold enumerate in Hloop.
    by rewrite (for_each_app_raise _ _ _ _ _ Hloop).
Qed.

(** X8: a Unit whose [get_output] raises aborts the call with its exception,
    when the Units before it combine without one (or there are none) and it
    has a weight. *)
Theorem get_output_unit_raises self solve inp
    (before rest : list (Unit num value)) h e :
  input self = Some inp →
  _content self = before ++ h :: rest →
  length before < length (_weights self) →
  unit_get_output h inp solve = Raise e →
  (before = []
   ∨ ∃ self' out,
       input self' = Some inp ∧ _weights self' = _weights self
       ∧ _content self' = before ∧ get_output self' solve = Ok out) →
  get_output self solve = Raise e.
Proof.
  intros Hin Hc Hlen He Hbefore.
  rewrite (get_output_with_input _ _ _ Hin), Hc.
  destruct (_weights self) as [|w0 ws] eqn:HW; [simpl in Hlen; lia|].
  cbn [index lookup]. simpl. rewrite (branch_loop (isinstance_float w0)).
  destruct Hbefore as [->|(self' & out & Hin' & Hw' & Hc' & Hget)].
  - unfold enumerate. simpl.
    by rewrite (body_raise (isinstance_float w0) _ _ _ _ _ _ _ He).
  - rewrite (get_output_with_input _ _ _ Hin'), Hw', Hc' in Hget.
    cbn [index lookup] in Hget. simpl in Hget.
    rewrite (branch_loop (isinstance_float w0)) in Hget.
    rewrite fmap_app, zip_app_l. unfold enumerate at 1.
    rewrite enumerate_from_app, for_each_app.
    unfold enumerate in Hget.
    destruct (for_each
                (zip (seq 0 (length (zip ((λ h, (h, inp)) <$> before)
                                        (w0 :: ws))))
                     (zip ((λ h, (h, inp)) <$> before) (w0 :: ws)))
                (if isinstance_float w0 then uniform_body solve
                 else mask_body solve) None) as [st|]; [|done].
    simpl. rewrite length_fmap.
    destruct (lookup_lt_is_Some_2 (w0 :: ws) (length before) Hlen)
      as [w Hw].
    rewrite (drop_S _ _ _ Hw). cbn [length seq zip_with for_each].
    by rewrite (body_raise (isinstance_float w0) _ _ _ _ _ _ _ He).
Qed.

(** *** Float weights and outputs of different lengths *)

(** The Units after the first, when their outputs are at least as long as
    [output]. *)
Lemma uniform_rest_longer solve inp (hs : list (Unit num value)) :
  ∀ (wts : list (weight num)) (ws : list num) (os : list (list num))
    (a : nat) out0,
  Forall2 (λ w y, scalar_value w = Some y) wts ws →
  Forall2 (λ h o, unit_get_output h inp solve = Ok o) hs os →
  length hs = length wts →
  Forall (λ o, length out0 ≤ length o) os →
  ∃ out,
    for_each
      (zip (seq (S a) (length (zip ((λ h, (h, inp)) <$> hs) wts)))
           (zip ((λ h, (h, inp)) <$> hs) wts))
      (uniform_body solve) (Some out0) = Ok (Some out)
    ∧ length out = length out0
    ∧ ∀ k, out !! k
           = foldl (λ acc ow,
                      a ← acc; x ← ow.1 !! k; Some (add a (mul x ow.2)))
                   (out0 !! k) (zip os ws).
Proof.
  induction hs as [|h hs IH]; intros wts ws os a out0 Hws Hos Hlen Hge.
  - destruct wts; [|done]. inversion Hws; inversion Hos; subst. simpl.
    by exists out0.
  - destruct wts as [|w wts]; [done|].
    inversion Hws as [|? y ? ws' Hw Hws']; subst.
    inversion Hos as [|? o ? os' Ho Hos']; subst.
    inversion Hge as [|? ? Hlo Hge']; subst.
    destruct (uniform_accumulate o w y out0 Hw Hlo)
      as (out1 & Hrun & Hl1 & Hk1).
    destruct (IH wts ws' os' (S a) out1 Hws' Hos') as (out & Hrest & Hl & Hk).
    { simpl in Hlen. lia. }
    { by rewrite Hl1. }
    exists out. split; [|split].
    + simpl. rewrite Ho. simpl. rewrite Hrun. simpl. exact Hrest.
    + by rewrite Hl, Hl1.
    + intros k. rewrite Hk. simpl. by rewrite Hk1.
Qed.

(** X9: with float weights the output has as many fluxes as the first Unit
    returns: the fluxes a later Unit returns beyond that number are left
    out, without an error. *)
Theorem get_output_truncates_to_first self solve inp
    (h0 : Unit num value) (hs : list (Unit num value))
    (w0 : num) (wts : list (weight num)) (ws : list num)
    (o0 : list num) (os : list (list num)) :
  input self = Some inp →
  _content self = h0 :: hs →
  _weights self = WFloat w0 :: wts →
  Forall2 (λ w y, scalar_value w = Some y) wts ws →
  unit_get_output h0 inp solve = Ok o0 →
  Forall2 (λ h o, unit_get_output h inp solve = Ok o) hs os →
  length hs = length wts →
  Forall (λ o, length o0 ≤ length o) os →
  ∃ out,
    get_output self solve = Ok out
    ∧ length out = length o0
    ∧ ∀ k, out !! k = weighted_sum ((o0, w0) :: zip os ws) k.
Proof.
  intros Hin Hc Hw Hws Ho0 Hos Hlen Hge.
  destruct (uniform_rest_longer solve inp hs wts ws os 0
              ((λ o, mul o w0) <$> o0) Hws Hos Hlen)
    as (out & Hrest & Hl & Hk).
  { by rewrite length_fmap. }
  exists out. split; [|split].
  - unfold get_output. rewrite (set_inputs_ok self inp Hin), Hc, Hw.
    rewrite fmap_cons. simpl.
    unfold uniform_branch, enumerate. simpl. rewrite Ho0. simpl.
    rewrite (scale_scalar o0 (WFloat w0) w0) by done.
    unfold fmap in Hrest |- *. simpl. rewrite Hrest. done.
  - by rewrite Hl, length_fmap.
  - intros k. rewrite Hk. unfold weighted_sum. simpl.
    by rewrite list_lookup_fmap.
Qed.

(** [for j in range(len(output)): output[j] += loc_out[j] * w], when
    [loc_out] is shorter than [output]. *)
Lemma uniform_accumulate_short loc_out (w : weight num) (y : num) out :
  scalar_value w = Some y →
  length loc_out < length out →
  for_each (seq 0 (length out))
    (λ j out,
       o ← index out j;
       x ← index loc_out j;
       p ← mul_weight x w;
       Ok (<[j := add o p]> out))
    out = Raise IndexError.
Proof.
  intros Hw Hlen.
  replace (length out)
    with (length loc_out + S (length out - S (length loc_out))) at 1 by lia.
  rewrite seq_app, for_each_app.
  destruct (for_each_seq_inv
    (λ (j : nat) (s : list num), length s = length out)
    (λ j out,
       o ← index out j;
       x ← index loc_out j;
       p ← mul_weight x w;
       Ok (<[j := add o p]> out))
    0 (length loc_out) out) as (s & Hrun & Hs).
  - done.
  - intros j s Hj Hs.
    destruct (lookup_lt_is_Some_2 s j) as [o Ho]; [lia|].
    destruct (lookup_lt_is_Some_2 loc_out j) as [x Hx]; [lia|].
    exists (<[j := add o (mul x y)]> s). split.
    + unfold index. rewrite Ho, Hx. simpl. destruct w; by simplify_eq/=.
    + by rewrite length_insert.
  - rewrite Hrun. simpl.
    destruct (lookup_lt_is_Some_2 s (length loc_out)) as [o Ho]; [lia|].
    unfold index. rewrite Ho. simpl.
    by rewrite (lookup_ge_None_2 loc_out (length loc_out)).
Qed.

(** What [get_output] returning [out] says of the loop over the Units. *)
Lemma get_output_ok_loop self solve inp out (w0 : weight num)
    (ws : list (weight num)) :
  input self = Some inp →
  _weights self = w0 :: ws →
  get_output self solve = Ok out →
  _content self ≠ []
  ∧ for_each
      (zip (seq 0 (length (zip ((λ h, (h, inp)) <$> _content self)
                             (w0 :: ws))))
           (zip ((λ h, (h, inp)) <$> _content self) (w0 :: ws)))
      (if isinstance_float w0 then uniform_body solve else mask_body solve)
      None = Ok (Some out).
Proof.
  intros Hin Hw. rewrite (get_output_with_input _ _ _ Hin), Hw.
  cbn [index lookup]. simpl. rewrite (branch_loop (isinstance_float w0)).
  unfold enumerate.
  destruct (for_each _ _ None) as [[out'|]|] eqn:Hloop; simpl; try done.
  intros [= <-]. split; [|done].
  intros Hc. rewrite Hc in Hloop. simpl in Hloop. done.
Qed.

(** The loop over the Units [before ++ h :: rest], split after [before]. *)
Lemma loop_after_prefix (b : bool) solve inp
    (before rest : list (Unit num value)) h
    (W : list (weight num)) (w : weight num) (st : option (list num)) :
  W !! length before = Some w →
  for_each
    (zip (seq 0 (length (zip ((λ h, (h, inp)) <$> before) W)))
         (zip ((λ h, (h, inp)) <$> before) W))
    (if b then uniform_body solve else mask_body solve) None = Ok st →
  for_each
    (enumerate (zip ((λ h, (h, inp)) <$> before ++ h :: rest) W))
    (if b then uniform_body solve else mask_body solve) None
  = s ← (if b then uniform_body solve else mask_body solve)
          (length before, ((h, inp), w)) st;
    for_each
      (zip (seq (S (length before))
              (length (zip ((λ h, (h, inp)) <$> rest)
                         (drop (S (length before)) W))))
           (zip ((λ h, (h, inp)) <$> rest) (drop (S (length before)) W)))
      (if b then uniform_body solve else mask_body solve) s.
Proof.
  intros Hw Hloop.
  assert (length (zip ((λ h, (h, inp)) <$> before) W) = length before)
    as Hlen.
  { rewrite length_zip_with, length_fmap.
    apply lookup_lt_Some in Hw. lia. }
  rewrite fmap_app, zip_app_l, length_fmap, (drop_S _ _ _ Hw), fmap_cons.
  unfold enumerate.
  rewrite enumerate_from_app, for_each_app, Hloop, Hlen.
  done.
Qed.

(** X10: with float weights, a Unit that returns fewer fluxes than the Units
    before it have been combined to makes [get_output] raise an
    [IndexError]. *)
Theorem get_output_shorter_output_raises self self' solve inp
    (rest : list (Unit num value)) h (w0 y : num)
    (ws : list (weight num)) (w : weight num) out (o : list num) :
  input self = Some inp →
  input self' = Some inp →
  _weights self = WFloat w0 :: ws →
  _weights self' = WFloat w0 :: ws →
  _content self = _content self' ++ h :: rest →
  (WFloat w0 :: ws) !! length (_content self') = Some w →
  scalar_value w = Some y →
  get_output self' solve = Ok out →
  unit_get_output h inp solve = Ok o →
  length o < length out →
  get_output self solve = Raise IndexError.
Proof.
  intros Hin Hin' HW HW' Hc Hw Hy Hget Ho Hshort.
  destruct (get_output_ok_loop _ _ _ _ _ _ Hin' HW' Hget) as [Hne Hloop].
  rewrite (get_output_with_input _ _ _ Hin), HW, Hc.
  cbn [index lookup]. simpl. unfold uniform_branch.
  rewrite (loop_after_prefix true _ _ _ _ _ _ _ _ Hw Hloop).
  simpl. rewrite Ho. simpl.
  case_decide as Hzero.
  { destruct (_content self'); [done|]. done. }
  simpl. by rewrite (uniform_accumulate_short o w y out Hy Hshort).
Qed.

(** X11: with float weights, a Node with one more Unit at the end returns
    the output of the Node without it plus, flux by flux, the output of that
    Unit times its weight. *)
Theorem get_output_one_more_unit self self' solve inp h (w0 y : num)
    (ws : list (weight num)) (w : weight num) out (o : list num) :
  input self = Some inp →
  input self' = Some inp →
  _weights self = WFloat w0 :: ws →
  _weights self' = WFloat w0 :: ws →
  _content self = _content self' ++ [h] →
  (WFloat w0 :: ws) !! length (_content self') = Some w →
  scalar_value w = Some y →
  get_output self' solve = Ok out →
  unit_get_output h inp solve = Ok o →
  length out ≤ length o →
  ∃ out',
    get_output self solve = Ok out'
    ∧ length out' = length out
    ∧ ∀ k, out' !! k
           = (a ← out !! k; x ← o !! k; Some (add a (mul x y))).
Proof.
  intros Hin Hin' HW HW' Hc Hw Hy Hget Ho Hlong.
  destruct (get_output_ok_loop _ _ _ _ _ _ Hin' HW' Hget) as [Hne Hloop].
  destruct (uniform_accumulate o w y out Hy Hlong) as (out' & Hrun & Hl & Hk).
  exists out'. split; [|done].
  rewrite (get_output_with_input _ _ _ Hin), HW, Hc.
  cbn [index lookup]. simpl. unfold uniform_branch.
  rewrite (loop_after_prefix true _ _ _ _ _ _ _ _ Hw Hloop).
  simpl. rewrite Ho. simpl.
  case_decide as Hzero.
  { destruct (_content self'); [done|]. done. }
  simpl. rewrite Hrun. done.
Qed.

(** *** Mask weights: errors *)

Lemma consumed_reaches (m : list (option num)) (n : nat) :
  n < consumed m (length m) →
  ∃ j wj, m !! j = Some (Some wj) ∧ consumed m j = n.
Proof.
  generalize (length m). intros k. induction k as [|k IH].
  - unfold consumed. rewrite take_0. simpl. lia.
  - intros Hn. destruct (decide (n < consumed m k)) as [Hlt|Hge]; [by apply IH|].
    destruct (m !! k) as [x|] eqn:Hk.
    + rewrite (consumed_S _ _ _ Hk) in Hn.
      destruct x as [wj|]; [|lia]. exists k, wj. split; [done|lia].
    + apply lookup_ge_None in Hk. unfold consumed in Hn, Hge.
      rewrite !take_ge in Hn, Hge by lia. lia.
Qed.

(** The first Unit, when it returns fewer fluxes than its mask has entries
    that are not null. *)
Lemma mask_first_short (m0 : list (option num)) (o0 : list num) :
  length o0 < consumed m0 (length m0) →
  for_each (seq 0 (length m0))
    (λ j (st : list num * nat),
       wj ← getitem (WList m0) j;
       match wj with
       | None => Ok (st.1 ++ [zero], st.2)
       | Some wj =>
           x ← index o0 st.2;
           Ok (st.1 ++ [mul x wj], S st.2)
       end)
    ([], 0) = Raise IndexError.
Proof.
  intros Hshort.
  destruct (consumed_reaches m0 (length o0) Hshort) as (j & wj & Hj & Hcj).
  pose proof (lookup_lt_Some _ _ _ Hj) as Hlt.
  replace (length m0) with (j + S (length m0 - S j)) at 1 by lia.
  rewrite seq_app, for_each_app.
  destruct (for_each_seq_inv
    (λ j' (st : list num * nat), st.2 = consumed m0 j')
    (λ j (st : list num * nat),
       wj ← getitem (WList m0) j;
       match wj with
       | None => Ok (st.1 ++ [zero], st.2)
       | Some wj =>
           x ← index o0 st.2;
           Ok (st.1 ++ [mul x wj], S st.2)
       end)
    0 j ([], 0)) as (st & Hrun & Hst).
  - done.
  - intros j' [out c] Hj' Hc. simpl in Hc. subst c.
    destruct (lookup_lt_is_Some_2 m0 j') as [x Hx]; [lia|].
    pose proof (consumed_S m0 j' x Hx) as HS.
    pose proof (consumed_le m0 (S j') j) as Hle.
    simpl. unfold index. rewrite Hx. simpl.
    destruct x as [wj'|]; simpl.
    + destruct (lookup_lt_is_Some_2 o0 (consumed m0 j')) as [y Hy]; [lia|].
      rewrite Hy. simpl. eexists. split; [done|]. simpl. lia.
    + eexists. split; [done|]. simpl. lia.
  - rewrite Hrun. simpl. unfold index. rewrite Hj. simpl.
    simpl in Hst. rewrite Hst, Hcj.
    by rewrite (lookup_ge_None_2 o0 (length o0)).
Qed.

(** X12: with mask weights, a first Unit that returns fewer fluxes than its
    mask has entries that are not null makes [get_output] raise an
    [IndexError]. *)
Theorem get_output_mask_too_few_outputs self solve inp
    (h0 : Unit num value) (hs : list (Unit num value))
    (m0 : list (option num)) (ws : list (weight num)) (o0 : list num) :
  input self = Some inp →
  _content self = h0 :: hs →
  _weights self = WList m0 :: ws →
  unit_get_output h0 inp solve = Ok o0 →
  length o0 < consumed m0 (length m0) →
  get_output self solve = Raise IndexError.
Proof.
  intros Hin Hc Hw Ho0 Hshort.
  rewrite (get_output_with_input _ _ _ Hin), Hc, Hw.
  cbn [index lookup]. simpl. unfold mask_branch, enumerate. simpl.
  rewrite Ho0. simpl.
  pose proof (mask_first_short m0 o0 Hshort) as Hloop.
  simpl in Hloop. by rewrite Hloop.
Qed.

(** X13: weights of mixed shapes: when the first weight is a list and the
    weight of a later Unit is a scalar, [get_output] raises a [TypeError] at
    [len(w)], once the Units before have been combined and that Unit has
    returned. *)
Theorem get_output_scalar_after_mask self self' solve inp
    (rest : list (Unit num value)) h (m0 : list (option num)) (y : num)
    (ws : list (weight num)) (w : weight num) out (o : list num) :
  input self = Some inp →
  input self' = Some inp →
  _weights self = WList m0 :: ws →
  _weights self' = WList m0 :: ws →
  _content self = _content self' ++ h :: rest →
  (WList m0 :: ws) !! length (_content self') = Some w →
  scalar_value w = Some y →
  get_output self' solve = Ok out →
  unit_get_output h inp solve = Ok o →
  get_output self solve = Raise TypeError.
Proof.
  intros Hin Hin' HW HW' Hc Hw Hy Hget Ho.
  destruct (get_output_ok_loop _ _ _ _ _ _ Hin' HW' Hget) as [Hne Hloop].
  rewrite (get_output_with_input _ _ _ Hin), HW, Hc.
  cbn [index lookup]. simpl. unfold mask_branch.
  rewrite (loop_after_prefix false _ _ _ _ _ _ _ _ Hw Hloop).
  simpl. rewrite Ho. simpl.
  case_decide as Hzero.
  { destruct (_content self'); [done|]. done. }
  by destruct w.
Qed.

(** X14: with mask weights, a Node with one more Unit at the end returns the
    output of the Node without it, with the contribution of that Unit
    accumulated at the positions where its mask is not null. *)
Theorem get_output_one_more_masked_unit self self' solve inp h
    (m0 m : list (option num)) (ws : list (weight num)) out (o : list num) :
  input self = Some inp →
  input self' = Some inp →
  _weights self = WList m0 :: ws →
  _weights self' = WList m0 :: ws →
  _content self = _content self' ++ [h] →
  (WList m0 :: ws) !! length (_content self') = Some (WList m) →
  get_output self' solve = Ok out →
  unit_get_output h inp solve = Ok o →
  consumed m (length m) ≤ length o →
  length m ≤ length out →
  ∃ out',
    get_output self solve = Ok out'
    ∧ length out' = length out
    ∧ ∀ k, out' !! k = (λ x, accumulate k x (m, o)) <$> out !! k.
Proof.
  intros Hin Hin' HW HW' Hc Hw Hget Ho Henough Hfits.
  destruct (get_output_ok_loop _ _ _ _ _ _ Hin' HW' Hget) as [Hne Hloop].
  destruct (mask_later m o out Henough Hfits)
    as (st & out' & Hrun & Hst & Hl & Hk).
  exists out'. split; [|done].
  rewrite (get_output_with_input _ _ _ Hin), HW, Hc.
  cbn [index lookup]. simpl. unfold mask_branch.
  rewrite (loop_after_prefix false _ _ _ _ _ _ _ _ Hw Hloop).
  simpl. rewrite Ho. simpl.
  case_decide as Hzero.
  { destruct (_content self'); [done|]. done. }
  simpl in Hrun. rewrite Hrun. simpl. by rewrite Hst.
Qed.

End OutputFacts.

Section AddressingFacts.
Context {num : Type} `{!Arith num} {value : Type}.
Implicit Types (self : Node num value) (h : Unit num value).
Variable find : Node num value → string → result nat.

(** X15: [_find_attribute_from_name] passes on the exception of
    [_find_content_from_name]; otherwise it returns the position found, and
    the flag for an element exactly when the id has two underscores. *)
Theorem find_attribute_from_name_flag self (id : string) :
  (∀ e, find self id = Raise e →
        _find_attribute_from_name find self id = Raise e)
  ∧ (∀ k, find self id = Ok k →
          _find_attribute_from_name find self id
          = Ok (k, bool_decide (count_char "_" id = 2))).
Proof.
  split.
  - intros e He. unfold _find_attribute_from_name. by rewrite He.
  - intros k Hk. unfold _find_attribute_from_name. rewrite Hk. simpl.
    rewrite length_split.
    case_decide; case_bool_decide; try done; lia.
Qed.

(** X16: what [get_internal] and [call_internal] raise besides the
    unknown-member error: the exception of [_find_content_from_name], an
    [IndexError] when the position found is not one of [self._content], and,
    for [call_internal] on the Unit itself, a [TypeError] when the member is
    not a method. *)
Theorem internal_other_errors self (id name : string)
    (kwargs : list (string * value)) :
  (∀ e, find self id = Raise e →
        get_internal find self id name = Raise e
        ∧ call_internal find self id name kwargs = Raise e)
  ∧ (∀ k, find self id = Ok k →
          length (_content self) ≤ k →
          get_internal find self id name = Raise IndexError
          ∧ call_internal find self id name kwargs = Raise IndexError)
  ∧ (∀ k h v, find self id = Ok k →
              _content self !! k = Some h →
              count_char "_" id ≠ 2 →
              unit_getattr h name = Some (Data v) →
              call_internal find self id name kwargs = Raise TypeError).
Proof.
  split; [|split].
  - intros e He. unfold get_internal, call_internal,
      _find_attribute_from_name. by rewrite He.
  - intros k Hk Hge. unfold get_internal, call_internal.
    rewrite (find_attribute_found _ _ _ _ Hk). simpl.
    unfold index. rewrite (lookup_ge_None_2 _ _ Hge).
    by case_bool_decide.
  - intros k h v Hk Hh Hn Hv.
    rewrite (call_internal_direct find _ _ _ _ _ _ Hk Hh), Hv; [done|].
    rewrite length_split. lia.
Qed.

End AddressingFacts.

(** * Further examples *)

Section MoreExamples.
Local Open Scope float_scope.

(** Without shared parameters the state [S0] of the first of two Units is
    under the name [n1_S0]. *)
Lemma init_prefixes_states_example :
  ((__init__ (example_units [] []) [WFloat 0.5; WFloat 0.5] 1 "n1" false
      example_store).2 !! 5%nat) ≫= (λ d, d !! "n1_S0")
  = Some 10.
Proof.
  destruct (init_prefixes_states_once
              (example_units [] []) [WFloat 0.5; WFloat 0.5] 1 "n1"
              example_store 0 (example_unit "A" 0 1 []))
    as (u & Hu & Hσ).
  - repeat constructor; simpl; lia.
  - reflexivity.
  - assert (Some u = Some (with_dicts (example_unit "A" 0 1 []) 4 5)) as Heq.
    { rewrite <- Hu. reflexivity. }
    injection Heq as ->.
    change 5%nat with (states (with_dicts (example_unit "A" 0 1 []) 4 5)).
    rewrite Hσ. vm_compute. reflexivity.
Defined.

Lemma get_output_before_set_input_example :
  get_output
    (__init__ (example_units [2] [3]) [WFloat 0.25; WFloat 0.75] 1 "n1" true
       example_store).1 true
  = Raise (AttributeError "'Node' object has no attribute 'input'").
Proof. by apply get_output_before_set_input. Defined.

(** Two Units and one weight: the second Unit plays no part. *)
Lemma get_output_ignores_surplus_example :
  get_output
    (example_node_of [example_unit "A" 0 1 [2]] [WFloat 0.5]) true
  = get_output
      (example_node_of [example_unit "A" 0 1 [2]; example_unit "B" 2 3 [3]]
         [WFloat 0.5]) true.
Proof.
  apply (get_output_ignores_surplus _ _ true []); try reflexivity. done.
Defined.

(** The second of three Units returns one flux where the first returned two. *)
Lemma get_output_raises_with_prefix_example :
  get_output
    (example_node_of
       [example_unit "A" 0 1 [2; 1]; example_unit "B" 2 3 [3];
        example_unit "C" 2 3 [4; 5]]
       [WFloat 0.25; WFloat 0.25; WFloat 0.5]) true
  = Raise IndexError.
Proof.
  apply (get_output_raises_with_prefix _
           (example_node_of
              [example_unit "A" 0 1 [2; 1]; example_unit "B" 2 3 [3]]
              [WFloat 0.25; WFloat 0.25; WFloat 0.5])
           true [] [example_unit "C" 2 3 [4; 5]]);
    try reflexivity.
  done.
Defined.

(** The second Unit raises. *)
Lemma get_output_unit_raises_example :
  get_output
    (example_node_of
       [example_unit "A" 0 1 [2]; failing_unit "B" 2 3 (OtherError "solver")]
       [WFloat 0.25; WFloat 0.75]) true
  = Raise (OtherError "solver").
Proof.
  apply (get_output_unit_raises _ true [] [example_unit "A" 0 1 [2]] []
           (failing_unit "B" 2 3 (OtherError "solver")));
    try reflexivity.
  - simpl. lia.
  - right.
    exists (example_node_of [example_unit "A" 0 1 [2]]
              [WFloat 0.25; WFloat 0.75]), [0.5].
    repeat split; reflexivity.
Defined.

(** The second Unit returns two fluxes, the first one. *)
Lemma get_output_truncates_example :
  get_output
    (example_node [WFloat 0.25; WFloat 0.75] [2] [3; 7] true) true
  = Ok [2.75].
Proof.
  destruct (get_output_truncates_to_first
              (example_node [WFloat 0.25; WFloat 0.75] [2] [3; 7] true)
              true []
              (example_unit "A" 0 1 [2]) [example_unit "B" 2 3 [3; 7]]
              0.25 [WFloat 0.75] [0.75] [2] [[3; 7]])
    as (out & Hout & Hlen & Hk).
  - reflexivity.
  - reflexivity.
  - reflexivity.
  - repeat constructor.
  - reflexivity.
  - repeat constructor.
  - reflexivity.
  - repeat constructor; simpl; lia.
  - rewrite Hout. f_equal. apply list_eq.
    intros [|[|k]]; rewrite Hk; reflexivity.
Defined.

Lemma get_output_shorter_output_example :
  get_output
    (example_node [WFloat 0.25; WFloat 0.75] [2; 1] [3] true) true
  = Raise IndexError.
Proof.
  apply (get_output_shorter_output_raises _
           (example_node_of [example_unit "A" 0 1 [2; 1]]
              [WFloat 0.25; WFloat 0.75])
           true [] [] (example_unit "B" 2 3 [3]) 0.25 0.75 [WFloat 0.75]
           (WFloat 0.75) [0.5; 0.25] [3]);
    try reflexivity.
  simpl. lia.
Defined.

Lemma get_output_one_more_unit_example :
  get_output
    (example_node [WFloat 0.25; WFloat 0.75] [2] [3] true) true
  = Ok [2.75].
Proof.
  destruct (get_output_one_more_unit
              (example_node [WFloat 0.25; WFloat 0.75] [2] [3] true)
              (example_node_of [example_unit "A" 0 1 [2]]
                 [WFloat 0.25; WFloat 0.75])
              true [] (example_unit "B" 2 3 [3]) 0.25 0.75 [WFloat 0.75]
              (WFloat 0.75) [0.5] [3])
    as (out & Hout & Hlen & Hk); [reflexivity..|].
  rewrite Hout. f_equal. apply list_eq.
  intros [|[|k]]; rewrite Hk; reflexivity.
Defined.

(** The first Unit returns no flux, and its mask asks for one. *)
Lemma get_output_mask_too_few_example :
  get_output
    (example_node [WList [Some 1; None]; WList [None; Some 1]] [] [3] true)
    true
  = Raise IndexError.
Proof.
  apply (get_output_mask_too_few_outputs _ true []
           (example_unit "A" 0 1 []) [example_unit "B" 2 3 [3]]
           [Some 1; None] [WList [None; Some 1]] []);
    try reflexivity.
  vm_compute. lia.
Defined.

Lemma get_output_scalar_after_mask_example :
  get_output
    (example_node [WList [Some 1]; WFloat 0.5] [2] [3] true) true
  = Raise TypeError.
Proof.
  apply (get_output_scalar_after_mask _
           (example_node_of [example_unit "A" 0 1 [2]]
              [WList [Some 1]; WFloat 0.5])
           true [] [] (example_unit "B" 2 3 [3]) [Some 1] 0.5 [WFloat 0.5]
           (WFloat 0.5) [2] [3]);
    reflexivity.
Defined.

Lemma get_output_one_more_masked_unit_example :
  get_output
    (example_node [WList [Some 0.5; None]; WList [None; Some 2]] [4] [8]
       true) true
  = Ok [2; 16].
Proof.
  destruct (get_output_one_more_masked_unit
              (example_node [WList [Some 0.5; None]; WList [None; Some 2]]
                 [4] [8] true)
              (example_node_of [example_unit "A" 0 1 [4]]
                 [WList [Some 0.5; None]; WList [None; Some 2]])
              true [] (example_unit "B" 2 3 [8]) [Some 0.5; None]
              [None; Some 2] [WList [None; Some 2]] [2; 0] [8])
    as (out & Hout & Hlen & Hk);
    [reflexivity..|vm_compute; lia|simpl; lia|].
  rewrite Hout. f_equal. apply list_eq.
  intros [|[|[|k]]]; rewrite Hk; reflexivity.
Defined.

End MoreExamples.
